(** * Shallow embedding of the structural index, dependency graph, relevance
    ranker and impact detector of codebase-ai-assistant.

    Sources:
    - utils/ast_parser.py            (parse_python_file, ASTParser)
    - services/repository_analyzer.py (build_dependency_graph, get_relevant_files)
    - services/impact_detector.py     (ImpactDetector)
    - services/claude_service.py      (ClaudeService.analyze_impact)
    - utils/prompt_templates.py       (IMPACT_ANALYSIS_PROMPT)

    Python strings are modelled as Stdlib [string] (ASCII); [str.lower] and
    [str.split()] are written out for the ASCII range. *)

From Stdlib Require Import String Ascii List Bool Arith Lia ZArith.
From Stdlib Require Import Sorting.Sorted Sorting.Permutation.
Import ListNotations.
Open Scope string_scope.

(** ** Python string primitives *)
Module PyStr.

(** [str.lower] on one ASCII character. *)
Definition ascii_lower (c : ascii) : ascii :=
  let n := nat_of_ascii c in
  if (Nat.leb 65 n) && (Nat.leb n 90) then ascii_of_nat (n + 32) else c.

Fixpoint lower (s : string) : string :=
  match s with
  | EmptyString => EmptyString
  | String c r => String (ascii_lower c) (lower r)
  end.

(** ASCII characters that [str.isspace] accepts: \t \n \v \f \r, the
    separators \x1c-\x1f and the blank. *)
Definition is_space (c : ascii) : bool :=
  let n := nat_of_ascii c in
  ((Nat.leb 9 n) && (Nat.leb n 13)) || ((Nat.leb 28 n) && (Nat.leb n 32)).

(** [str.split()] with no separator: runs of whitespace separate words, and
    no empty word is produced. *)
Fixpoint split_go (s cur : string) : list string :=
  match s with
  | EmptyString => if String.eqb cur "" then [] else [cur]
  | String c r =>
      if is_space c then
        (if String.eqb cur "" then split_go r "" else cur :: split_go r "")
      else split_go r (cur ++ String c "")
  end.

Definition split (s : string) : list string := split_go s "".

(** [needle in hay] for two strings: substring test. *)
Fixpoint contains (needle hay : string) : bool :=
  prefix needle hay ||
  match hay with
  | EmptyString => false
  | String _ r => contains needle r
  end.

(** [s.replace(a, b)] for single characters. *)
Fixpoint replace_char (a b : ascii) (s : string) : string :=
  match s with
  | EmptyString => EmptyString
  | String c r => String (if Ascii.eqb c a then b else c) (replace_char a b r)
  end.

(** [s.split(sep)[-1]] for a one-character separator: the text after the
    last separator (the whole string when there is none). *)
Fixpoint last_segment (sep : ascii) (s cur : string) : string :=
  match s with
  | EmptyString => cur
  | String c r =>
      if Ascii.eqb c sep then last_segment sep r ""
      else last_segment sep r (cur ++ String c "")
  end.

(** [Path(p).name] for a relative file path: the text after the last '/'. *)
Definition path_name (p : string) : string := last_segment "/"%char p "".

(** [s.startswith(t)]. *)
Definition startswith (s t : string) : bool := prefix t s.

End PyStr.

Import PyStr.

(** ** Records of the structural index (dicts of _parse_repository) *)

Record FuncInfo := {
  fn_name : string;
  fn_args : list (string * option string);
  fn_return_type : option string;
  fn_decorators : list string;
  fn_docstring : option string;
  fn_is_method : bool;
  fn_class : option string
}.

Record ClassInfo := {
  cls_name : string;
  cls_methods : list FuncInfo;
  cls_decorators : list string;
  cls_bases : list string;
  cls_docstring : option string
}.

(** An import dict: ['type'] is "import" or "from_import"; ['name'] only
    exists for the second form. *)
Record ImportInfo := {
  imp_type : string;
  imp_module : string;
  imp_name : option string;
  imp_alias : option string
}.

(** The ['docstring'] entry of a file record: absent, [None] or a string. *)
Inductive DocField := DocMissing | DocNone | DocStr (s : string).

Record FileInfo := {
  file_path : string;
  f_classes : list ClassInfo;
  f_functions : list FuncInfo;
  f_imports : list ImportInfo;
  f_docstring : DocField
}.

(** The ['structure'] dict. The flattened lists also carry a ['file_path']
    key per entry, which none of the modelled operations reads. *)
Record Structure := {
  st_files : list FileInfo;
  st_classes : list ClassInfo;
  st_functions : list FuncInfo;
  st_imports : list ImportInfo;
  st_files_parsed : nat
}.

(** An edge dict of the dependency graph: source, target, type. *)
Record Edge := {
  source : string;
  target : string;
  etype : string
}.

(** ** ImpactDetector (services/impact_detector.py) *)
Module ImpactDetector.

Inductive risk := low | medium | high | critical.

(** The order low <= medium <= high <= critical. *)
Definition risk_rank (r : risk) : nat :=
  match r with low => 0 | medium => 1 | high => 2 | critical => 3 end.

Record ImpactData := {
  affected_files : list string;
  has_overlaps : bool;
  affects_core : bool;
  warnings : list string
}.

Definition calculate_risk_level (impact_data : ImpactData) : risk :=
  let affected_files_count := length (affected_files impact_data) in
  let has_overlaps := has_overlaps impact_data in
  let affects_core := affects_core impact_data in
  let warnings_count := length (warnings impact_data) in
  if affects_core && (Nat.ltb 3 (warnings_count)) then critical
  else if affects_core || (Nat.ltb 8 (affected_files_count)) then high
  else if has_overlaps || (Nat.ltb 3 (affected_files_count)) then medium
  else low.

(** [set.add] on a list without duplicates. *)
Definition set_add (x : string) (s : list string) : list string :=
  if existsb (String.eqb x) s then s else s ++ [x].

(** [list(set(initial_files))]; Python's set iteration order is not
    modelled, only membership and the absence of duplicates. *)
Definition set_of_list (l : list string) : list string :=
  fold_left (fun acc x => set_add x acc) l [].

Definition expand_affected_files (initial_files : list string)
    (edges : list Edge) : list string :=
  fold_left
    (fun all_files edge =>
       if existsb (fun af => contains af (source edge)) initial_files
          && String.eqb (etype edge) "imports"
       then set_add (target edge) all_files
       else all_files)
    edges (set_of_list initial_files).

Definition find_files_by_keywords (change_request : string)
    (structure : Structure) : list string :=
  let keywords := split (lower change_request) in
  flat_map
    (fun file_info =>
       let fp := lower (file_path file_info) in
       if existsb (fun keyword => (Nat.ltb 3 (String.length keyword)) && contains keyword fp)
                  keywords
       then [file_path file_info] else [])
    (st_files structure).

Definition feature_name_ok (name : string) : bool :=
  negb (String.eqb name "") && negb (startswith name "_").

Definition extract_features (structure : Structure) : list string :=
  filter feature_name_ok (map cls_name (st_classes structure))
  ++ filter feature_name_ok (map fn_name (st_functions structure)).

Record Overlap := {
  feature_name : string;
  overlap_type : string;
  conflict_description : string
}.

Definition detect_feature_overlap (change_request : string)
    (existing_features : list string) : list Overlap :=
  let change_lower := lower change_request in
  flat_map
    (fun feature =>
       let feature_lower := lower feature in
       if existsb (fun word => (Nat.ltb 4 (String.length word)) && contains word change_lower)
                  (split feature_lower)
       then [{| feature_name := feature;
                overlap_type := "potential_conflict";
                conflict_description :=
                  "Change may conflict with existing feature: " ++ feature |}]
       else [])
    existing_features.

Definition core_keywords : list string :=
  ["app.py"; "config"; "auth"; "database"; "model"; "service"].

Definition affects_core_modules (files : list string) : bool :=
  existsb (fun f => existsb (fun keyword => contains keyword (lower f))
                            core_keywords) files.

(** RISK_CRITERIA[level]['auto_proceed'] and .get('requires_approval', False). *)
Definition auto_proceed (r : risk) : bool :=
  match r with low => true | _ => false end.

Definition requires_approval (r : risk) : bool :=
  match r with high | critical => true | _ => false end.

(** The reply of [self.claude.analyze_impact]: each key may be missing. *)
Record Opinion := {
  op_affected_files : option (list string);
  op_affected_features : option (list string);
  op_warnings : option (list string);
  op_recommendation : option string
}.

Definition no_opinion : Opinion := {|
  op_affected_files := None; op_affected_features := None;
  op_warnings := None; op_recommendation := None |}.

Definition get_list (o : option (list string)) : list string :=
  match o with Some l => l | None => [] end.

(** [repo_data]: the index and the edge list of the dependency graph. *)
Record RepoData := {
  rd_structure : Structure;
  rd_edges : list Edge
}.

Record Report := {
  rep_risk_level : risk;
  rep_affected_files : list string;
  rep_affected_features : list string;
  rep_warnings : list string;
  rep_recommendation : string;
  rep_should_proceed : bool;
  rep_requires_approval : bool;
  rep_overlaps : list Overlap
}.

(** Lines 78-112 of ImpactDetector.analyze_change_impact: the report built
    from [claude_analysis], the reply of [self.claude.analyze_impact]. The
    whole method, with the call, is ImpactAnalysis.analyze_change_impact. *)
Definition analyze_change_impact_from (change_request : string) (repo_data : RepoData)
    (claude_analysis : Opinion) : Report :=
  let structure := rd_structure repo_data in
  let edges := rd_edges repo_data in
  let affected_files0 := get_list (op_affected_files claude_analysis) in
  let affected_files :=
    match affected_files0 with
    | [] => find_files_by_keywords change_request structure
    | _ => affected_files0
    end in
  let all_affected_files := expand_affected_files affected_files edges in
  let existing_features := extract_features structure in
  let overlaps := detect_feature_overlap change_request existing_features in
  let risk_level := calculate_risk_level {|
        affected_files := all_affected_files;
        has_overlaps := Nat.ltb 0 (length overlaps);
        affects_core := affects_core_modules all_affected_files;
        warnings := get_list (op_warnings claude_analysis) |} in
  {| rep_risk_level := risk_level;
     rep_affected_files := all_affected_files;
     rep_affected_features := get_list (op_affected_features claude_analysis);
     rep_warnings := get_list (op_warnings claude_analysis)
                     ++ map conflict_description overlaps;
     rep_recommendation :=
       match op_recommendation claude_analysis with Some r => r | None => "" end;
     rep_should_proceed := auto_proceed risk_level;
     rep_requires_approval := requires_approval risk_level;
     rep_overlaps := overlaps |}.

End ImpactDetector.

(** ** RepositoryAnalyzer.get_relevant_files (services/repository_analyzer.py) *)
Module Ranker.

(** Outcome of a Python call: a value, or a raised exception (its class name). *)
Inductive PyResult (A : Type) := Ok (a : A) | Raise (exc : string).
Arguments Ok {A} a.
Arguments Raise {A} exc.

Definition bind {A B : Type} (r : PyResult A) (k : A -> PyResult B) : PyResult B :=
  match r with Ok a => k a | Raise e => Raise e end.

Definition is_raise {A : Type} (r : PyResult A) : bool :=
  match r with Ok _ => false | Raise _ => true end.

(** A ranked entry. Scores are floats in the source; all increments are
    multiples of 0.5, so the model counts half points exactly:
    2.0 = 4, 1.5 = 3, 1.0 = 2, 0.5 = 1. *)
Record Scored := {
  sc_file_path : string;
  relevance_score : nat;
  sc_content : string
}.

(** A repository row: ['local_path'] and ['structure_json'] (None when the
    key is missing or its dict is empty, i.e. falsy). *)
Record Repo := {
  repo_local_path : option string;
  repo_structure_json : option Structure
}.

(** [for term in query_terms: if term in hay: score += w] *)
Definition add_matches (query_terms : list string) (hay : string) (w : nat)
    (score : nat) : nat :=
  fold_left (fun score term => if contains term hay then score + w else score)
    query_terms score.

(** The body of the loop over [structure['files']] up to the [score > 0]
    test; [file_info.get('docstring', '').lower()] raises AttributeError when
    the entry is None. *)
Definition score_file (query_terms : list string) (file_info : FileInfo)
    : PyResult nat :=
  let file_name := lower (path_name (file_path file_info)) in
  let score := add_matches query_terms file_name 4 0 in
  let score := fold_left (fun score cls => add_matches query_terms (lower (cls_name cls)) 3 score)
                 (f_classes file_info) score in
  let score := fold_left (fun score func => add_matches query_terms (lower (fn_name func)) 2 score)
                 (f_functions file_info) score in
  match f_docstring file_info with
  | DocNone => Raise "AttributeError"
  | DocMissing => Ok (add_matches query_terms (lower "") 1 score)
  | DocStr d => Ok (add_matches query_terms (lower d) 1 score)
  end.

(** [scored_files.sort(key=..., reverse=True)]: Python's sort is stable
    also with [reverse=True], so entries of equal score keep their order.
    Each entry is inserted after every entry whose score is at least its own. *)
Fixpoint insert_desc (x : Scored) (l : list Scored) : list Scored :=
  match l with
  | [] => [x]
  | y :: r => if Nat.leb (relevance_score x) (relevance_score y)
              then y :: insert_desc x r else x :: y :: r
  end.

Definition sort_desc (l : list Scored) : list Scored :=
  fold_left (fun acc x => insert_desc x acc) l [].

(** [l[:k]] *)
Definition py_slice_upto {A : Type} (l : list A) (k : Z) : list A :=
  if (0 <=? k)%Z then firstn (Z.to_nat k) l
  else firstn (length l - Z.to_nat (- k)) l.

Section WithFileContent.

(** [self._get_file_content(repo.get('local_path'), file_path)]: reads the
    file from disk, "" on failure. *)
Variable get_file_content : option string -> string -> string.

Definition score_files (local_path : option string) (query_terms : list string)
    (files : list FileInfo) : PyResult (list Scored) :=
  fold_left
    (fun acc file_info =>
       bind acc (fun scored_files =>
       bind (score_file query_terms file_info) (fun score =>
       Ok (if Nat.ltb 0 score
           then app scored_files
                  [{| sc_file_path := file_path file_info;
                      relevance_score := score;
                      sc_content := get_file_content local_path (file_path file_info) |}]
           else scored_files))))
    files (Ok []).

Definition get_relevant_files (repo : option Repo) (query : string) (top_k : Z)
    : PyResult (list Scored) :=
  match repo with
  | None => Ok []
  | Some r =>
      match repo_structure_json r with
      | None => Ok []
      | Some structure =>
          let query_terms := split (lower query) in
          bind (score_files (repo_local_path r) query_terms (st_files structure))
               (fun scored_files => Ok (py_slice_upto (sort_desc scored_files) top_k))
      end
  end.

End WithFileContent.

End Ranker.

(** ** RepositoryAnalyzer.build_dependency_graph (services/repository_analyzer.py) *)
Module DepGraph.

(** The attribute dict of a networkx node: ['type'] and ['file'] (None when
    the key is absent). *)
Record NodeAttr := {
  na_type : option string;
  na_file : option string
}.

(** A networkx DiGraph: nodes with their attributes, edges keyed by
    (source, target) with their ['type'] attribute. Both are kept in
    insertion order; the order of [G.edges] is not modelled (no claim reads
    it). Cycle detection (nx.simple_cycles) is not modelled. *)
Record DiGraph := {
  g_nodes : list (string * NodeAttr);
  g_edges : list ((string * string) * string)
}.

Definition empty_graph : DiGraph := {| g_nodes := []; g_edges := [] |}.

Definition has_node (G : DiGraph) (n : string) : bool :=
  existsb (fun p => String.eqb (fst p) n) (g_nodes G).

Definition node_attr (G : DiGraph) (n : string) : option NodeAttr :=
  option_map snd (find (fun p => String.eqb (fst p) n) (g_nodes G)).

(** [G.add_node(n, type=typ[, file=f])]: a new node gets the given
    attributes; an existing node has them merged into its dict. *)
Definition add_node (n typ : string) (file : option string) (G : DiGraph) : DiGraph :=
  if has_node G n then
    {| g_nodes :=
         map (fun p => if String.eqb (fst p) n
                       then (fst p, {| na_type := Some typ;
                                       na_file := match file with
                                                  | Some f => Some f
                                                  | None => na_file (snd p)
                                                  end |})
                       else p) (g_nodes G);
       g_edges := g_edges G |}
  else {| g_nodes := app (g_nodes G) [(n, {| na_type := Some typ; na_file := file |})];
          g_edges := g_edges G |}.

(** [add_edge] first adds a missing endpoint with an empty attribute dict. *)
Definition ensure_node (n : string) (G : DiGraph) : DiGraph :=
  if has_node G n then G
  else {| g_nodes := app (g_nodes G) [(n, {| na_type := None; na_file := None |})];
          g_edges := g_edges G |}.

Definition key_eqb (k1 k2 : string * string) : bool :=
  String.eqb (fst k1) (fst k2) && String.eqb (snd k1) (snd k2).

(** [G.add_edge(u, v, type=typ)]: at most one edge per (u, v); adding it
    again updates its ['type']. *)
Definition add_edge (u v typ : string) (G : DiGraph) : DiGraph :=
  let G := ensure_node v (ensure_node u G) in
  if existsb (fun e => key_eqb (fst e) (u, v)) (g_edges G) then
    {| g_nodes := g_nodes G;
       g_edges := map (fun e => if key_eqb (fst e) (u, v) then (fst e, typ) else e)
                      (g_edges G) |}
  else {| g_nodes := g_nodes G; g_edges := app (g_edges G) [((u, v), typ)] |}.

(** First loop: the file node, then its class and function nodes, each with
    a contains edge. *)
Definition add_file_nodes (G : DiGraph) (file_info : FileInfo) : DiGraph :=
  let file_path := file_path file_info in
  let G := add_node file_path "file" None G in
  let G := fold_left
             (fun G cls =>
                let class_name := file_path ++ "::" ++ cls_name cls in
                add_edge file_path class_name "contains"
                  (add_node class_name "class" (Some file_path) G))
             (f_classes file_info) G in
  fold_left
    (fun G func =>
       let func_name := file_path ++ "::" ++ fn_name func in
       add_edge file_path func_name "contains"
         (add_node func_name "function" (Some file_path) G))
    (f_functions file_info) G.

(** The files matched by a from-import: [module.replace('.', '/')] or
    [module.split('.')[-1]] is a substring of their path. *)
Definition import_targets (files : list FileInfo) (module : string) : list string :=
  map file_path
    (filter (fun f => contains (replace_char "." "/" module) (file_path f)
                      || contains (last_segment "." module "") (file_path f))
            files).

(** Second loop: an imports edge to every matched file but itself. *)
Definition add_import_edges (files : list FileInfo) (G : DiGraph)
    (file_info : FileInfo) : DiGraph :=
  let file_path := file_path file_info in
  fold_left
    (fun G imp =>
       if String.eqb (imp_type imp) "from_import" then
         fold_left
           (fun G target =>
              if negb (String.eqb target file_path)
              then add_edge file_path target "imports" G else G)
           (import_targets files (imp_module imp)) G
       else G)
    (f_imports file_info) G.

Definition build_dependency_graph (structure : Structure) : DiGraph :=
  let G := fold_left add_file_nodes (st_files structure) empty_graph in
  fold_left (add_import_edges (st_files structure)) (st_files structure) G.

End DepGraph.

(** ** parse_python_file and ASTParser (utils/ast_parser.py) *)
Module ASTParser.

#[local] Set Warnings "-register-all".

(** The part of Python's [ast] the parser reads. Expressions: names,
    attributes, calls, string constants and anything else. Annotations and
    return annotations are kept as their [ast.unparse] text. *)
Inductive expr :=
| EName (id : string)
| EAttribute (value : expr) (attr : string)
| ECall (func : expr)
| EStr (s : string)
| EOther.

(** Statements: class and function definitions, both import forms, bare
    expressions, and every other statement with the statements nested in it
    (the bodies of if, for, with, try, ...). *)
Inductive stmt :=
| SClassDef (name : string) (decorator_list : list expr) (bases : list expr)
            (body : list stmt)
| SFunctionDef (name : string) (args : list (string * option string))
               (returns : option string) (decorator_list : list expr)
               (body : list stmt)
| SImport (names : list (string * option string))
| SImportFrom (module : option string) (names : list (string * option string))
| SExpr (value : expr)
| SOther (children : list stmt).

(** An exception: [SyntaxError], any other subclass of [Exception]
    (OSError, UnicodeDecodeError, ValueError, RecursionError, ...), or a
    [BaseException] outside [Exception] (KeyboardInterrupt, SystemExit). *)
Inductive PyExc :=
| SyntaxError (msg : string)
| OtherError (msg : string)
| NonException (msg : string).

(** The dict [parse_python_file] builds in its handlers. *)
Record ParseDict := {
  pd_error : string;
  pd_classes : list ClassInfo;
  pd_functions : list FuncInfo;
  pd_imports : list ImportInfo;
  pd_docstring : option string
}.

Inductive PyValue := PyNone | PyDict (d : ParseDict).

Inductive Outcome := Returned (v : PyValue) | Raised (e : PyExc).

(** The attributes of an [ASTParser] instance. *)
Record VState := {
  classes : list ClassInfo;
  functions : list FuncInfo;
  imports : list ImportInfo;
  docstring : option string;
  current_class : option string
}.

Definition init_state : VState :=
  {| classes := []; functions := []; imports := []; docstring := None;
     current_class := None |}.

Section Parser.

(** [inspect.cleandoc], applied by [ast.get_docstring]. *)
Variable cleandoc : string -> string.
(** [str(node)] of an expression that is neither a name nor an attribute
    (its text holds the object's address). *)
Variable node_str : expr -> string.
(** [open(file_path).read()] and [ast.parse(content, filename=file_path)]. *)
Variable read_file : string -> PyExc + string.
Variable ast_parse : string -> string -> PyExc + list stmt.

Fixpoint _get_name (node : expr) : string :=
  match node with
  | EName id => id
  | EAttribute value attr => _get_name value ++ "." ++ attr
  | _ => node_str node
  end.

Fixpoint _get_decorator_name (node : expr) : string :=
  match node with
  | EName id => id
  | EAttribute value attr => _get_name value ++ "." ++ attr
  | ECall func => _get_decorator_name func
  | _ => node_str node
  end.

(** [ast.get_docstring(node)]: the cleaned text of a leading string
    expression of the body. *)
Definition get_docstring (body : list stmt) : option string :=
  match body with
  | SExpr (EStr s) :: _ => Some (cleandoc s)
  | _ => None
  end.

Definition _extract_function_info (st : VState) (name : string)
    (args : list (string * option string)) (returns : option string)
    (decorator_list : list expr) (body : list stmt) (is_method : bool) : FuncInfo :=
  {| fn_name := name;
     fn_args := args;
     fn_return_type := returns;
     fn_decorators := map _get_decorator_name decorator_list;
     fn_docstring := get_docstring body;
     fn_is_method := is_method;
     fn_class := if is_method then current_class st else None |}.

Definition set_current_class (st : VState) (c : option string) : VState :=
  {| classes := classes st; functions := functions st; imports := imports st;
     docstring := docstring st; current_class := c |}.

Definition add_class (st : VState) (c : ClassInfo) : VState :=
  {| classes := app (classes st) [c]; functions := functions st; imports := imports st;
     docstring := docstring st; current_class := current_class st |}.

Definition add_function (st : VState) (f : FuncInfo) : VState :=
  {| classes := classes st; functions := app (functions st) [f]; imports := imports st;
     docstring := docstring st; current_class := current_class st |}.

Definition add_imports (st : VState) (l : list ImportInfo) : VState :=
  {| classes := classes st; functions := functions st; imports := app (imports st) l;
     docstring := docstring st; current_class := current_class st |}.

(** The methods of a class body: its direct [FunctionDef] statements,
    extracted while [current_class] is the class name. *)
Definition class_methods (st : VState) (body : list stmt) : list FuncInfo :=
  flat_map (fun item =>
              match item with
              | SFunctionDef n a r d b => [_extract_function_info st n a r d b true]
              | _ => []
              end) body.

(** [self.visit(node)]: the visit_* methods, and [generic_visit] for the
    statements nested in a node. *)
Fixpoint visit (st : VState) (node : stmt) : VState :=
  let generic_visit := fix go (st : VState) (l : list stmt) : VState :=
    match l with [] => st | s :: l => go (visit st s) l end in
  match node with
  | SClassDef name decorator_list bases body =>
      let st := set_current_class st (Some name) in
      let class_info := {| cls_name := name;
                           cls_methods := class_methods st body;
                           cls_decorators := map _get_decorator_name decorator_list;
                           cls_bases := map _get_name bases;
                           cls_docstring := get_docstring body |} in
      let st := add_class st class_info in
      let st := set_current_class st None in
      generic_visit st body
  | SFunctionDef name args returns decorator_list body =>
      let st := match current_class st with
                | None => add_function st
                            (_extract_function_info st name args returns
                               decorator_list body false)
                | Some _ => st
                end in
      generic_visit st body
  | SImport names =>
      add_imports st (map (fun a => {| imp_type := "import"; imp_module := fst a;
                                       imp_name := None; imp_alias := snd a |}) names)
  | SImportFrom module names =>
      let module := match module with Some m => m | None => "" end in
      add_imports st (map (fun a => {| imp_type := "from_import"; imp_module := module;
                                       imp_name := Some (fst a); imp_alias := snd a |})
                          names)
  | SExpr _ => st
  | SOther children => generic_visit st children
  end.

(** The instance after [self.visit(tree)] on a module and the module
    docstring step of [parse]. *)
Definition parse_state (tree : list stmt) : VState :=
  let st := fold_left visit tree init_state in
  match tree with
  | SExpr (EStr s) :: _ =>
      {| classes := classes st; functions := functions st; imports := imports st;
         docstring := Some s; current_class := current_class st |}
  | _ => st
  end.

(** [ASTParser.parse]: it fills the instance's attributes, and its body ends
    without a return statement, so the call evaluates to None. *)
Definition parse (tree : list stmt) (file_path : string) : PyValue :=
  let _ := parse_state tree in PyNone.

Definition error_dict (msg : string) : PyValue :=
  PyDict {| pd_error := msg; pd_classes := []; pd_functions := []; pd_imports := [];
            pd_docstring := None |}.

(** The two handlers: [except SyntaxError] and [except Exception]; a
    [BaseException] outside [Exception] propagates. *)
Definition handle (e : PyExc) : Outcome :=
  match e with
  | SyntaxError msg => Returned (error_dict ("Syntax error: " ++ msg))
  | OtherError msg => Returned (error_dict ("Parse error: " ++ msg))
  | NonException _ => Raised e
  end.

Definition parse_python_file (file_path : string) : Outcome :=
  match read_file file_path with
  | inl e => handle e
  | inr content =>
      match ast_parse content file_path with
      | inl e => handle e
      | inr tree => Returned (parse tree file_path)
      end
  end.

End Parser.

End ASTParser.

(** ** Readings of the spec's words, compared with the code above *)
Module SpecWords.
Import ImpactDetector Ranker.

(** C3 (claim as written): the expanded set is the seed set plus the target
    of every imports edge whose source is a member of the seed set. *)
Definition claim_expanded_member (initial_files : list string) (edges : list Edge)
    (y : string) : Prop :=
  In y initial_files \/
  exists e, In e edges /\ etype e = "imports" /\ In (source e) initial_files
            /\ target e = y.

Definition b2n (b : bool) : nat := if b then 1 else 0.

(** The ['docstring'] text the ranker reads ([.get('docstring', '')]) when
    the entry is not None. *)
Definition doc_text (d : DocField) : string :=
  match d with DocStr s => s | _ => "" end.

(** C8 (claim as written), in half points: per query term, 2.0 if it is in
    the base name, 1.5 if it is in any class name, 1.0 if it is in any
    function name, 0.5 if it is in the docstring. *)
Definition claim_score (query_terms : list string) (f : FileInfo) : nat :=
  list_sum (map (fun t =>
      4 * b2n (contains t (lower (path_name (file_path f))))
    + 3 * b2n (existsb (fun c => contains t (lower (cls_name c))) (f_classes f))
    + 2 * b2n (existsb (fun g => contains t (lower (fn_name g))) (f_functions f))
    + b2n (contains t (lower (doc_text (f_docstring f))))) query_terms).

(** C8 (amended), in half points: per query term, 2.0 for the base name,
    1.5 for each class whose name contains it, 1.0 for each function whose
    name contains it, 0.5 for the docstring. *)
Definition score_spec (query_terms : list string) (f : FileInfo) : nat :=
  list_sum (map (fun t =>
      4 * b2n (contains t (lower (path_name (file_path f))))
    + 3 * length (filter (fun c => contains t (lower (cls_name c))) (f_classes f))
    + 2 * length (filter (fun g => contains t (lower (fn_name g))) (f_functions f))
    + b2n (contains t (lower (doc_text (f_docstring f))))) query_terms).

(** The files of positive score, in index order, with their entries. *)
Definition candidates (get_file_content : option string -> string -> string)
    (local_path : option string) (query_terms : list string)
    (files : list FileInfo) : list Scored :=
  flat_map (fun f =>
     let s := score_spec query_terms f in
     if Nat.ltb 0 s
     then [{| sc_file_path := file_path f; relevance_score := s;
              sc_content := get_file_content local_path (file_path f) |}]
     else []) files.

(** [c] occurs in [s]. *)
Fixpoint has_char (c : ascii) (s : string) : bool :=
  match s with
  | EmptyString => false
  | String d r => Ascii.eqb d c || has_char c r
  end.

(** A declaration name as the parser reports it (a Python identifier):
    neither ':' nor '.' occurs in it. *)
Definition plain_name (s : string) : bool :=
  negb (has_char ":" s) && negb (has_char "." s).

End SpecWords.

(** ** Auxiliary predicates used by the proofs *)
Module Aux.
Import ImpactDetector Ranker DepGraph SpecWords.

(** The test of the expansion loop of [expand_affected_files] on one edge. *)
Definition expansion_step (initial_files : list string) (e : Edge) : bool :=
  existsb (fun af => contains af (source e)) initial_files
  && String.eqb (etype e) "imports".

(** Insertion into a list sorted by decreasing score. *)
Definition desc (x y : Scored) : Prop := relevance_score y <= relevance_score x.

Definition score_is (s : nat) (x : Scored) : bool := Nat.eqb (relevance_score x) s.

(** [n] is the node ["fp::name"] of a declaration of file [fp]. *)
Definition member (fp n : string) : Prop :=
  exists nm, n = (fp ++ "::" ++ nm)%string /\ plain_name nm = true.

(** [n] is a node whose ['type'] is "file". *)
Definition is_file (G : DiGraph) (n : string) : Prop :=
  exists a, node_attr G n = Some a /\ na_type a = Some "file".

(** Invariant of the graph under construction, for the file paths [paths]:
    file nodes are paths; class and function nodes carry their owning file,
    which is a file node with a contains edge to them; contains edges go
    from a file to one of its declarations and imports edges join file
    nodes; edges are unique per (source, target). *)
Definition graph_inv (paths : list string) (G : DiGraph) : Prop :=
  (forall n a, node_attr G n = Some a ->
     (na_type a = Some "file" /\ In n paths) \/ na_type a = None \/
     ((na_type a = Some "class" \/ na_type a = Some "function") /\
      exists fp, na_file a = Some fp /\ member fp n /\ is_file G fp /\
                 In ((fp, n), "contains") (g_edges G))) /\
  (forall u v t, In ((u, v), t) (g_edges G) ->
     (t = "contains" /\ member u v) \/ (t = "imports" /\ is_file G u /\ is_file G v)) /\
  NoDup (map fst (g_edges G)).

(** [l1] is a subsequence of [l2]: its elements occur in [l2] in the
    same order, each at its own position. *)
Inductive subseq {A : Type} : list A -> list A -> Prop :=
| subseq_nil : subseq [] []
| subseq_skip (x : A) (l1 l2 : list A) : subseq l1 l2 -> subseq l1 (x :: l2)
| subseq_take (x : A) (l1 l2 : list A) : subseq l1 l2 -> subseq (x :: l1) (x :: l2).

(** The class and function names of a file are plain identifiers. *)
Definition names_ok (f : FileInfo) : bool :=
  forallb (fun c => plain_name (cls_name c)) (f_classes f) &&
  forallb (fun g => plain_name (fn_name g)) (f_functions f).

End Aux.

(** ** ImpactDetector.find_affected_modules (services/impact_detector.py) *)
Module ImpactDetectorExtra.
Import ImpactDetector.

(** An entry of the result; ['dependency_strength'] is the float 1.0,
    counted in half points as in the ranker (1.0 = 2). *)
Record Affected := {
  af_file_path : string;
  relationship_type : string;
  dependency_strength : nat
}.

Definition find_affected_modules (target_file : string) (edges : list Edge)
    : list Affected :=
  flat_map
    (fun edge =>
       if contains target_file (target edge) || contains target_file (source edge)
       then [{| af_file_path := if contains target_file (source edge)
                                then target edge else source edge;
                relationship_type := etype edge;
                dependency_strength := 2 |}]
       else [])
    edges.

End ImpactDetectorExtra.

(** ** RepositoryAnalyzer._extract_repo_name and _parse_repository *)
Module RepoAnalyzerExtra.
Import ASTParser.

(** [s.endswith(t)]: some suffix of [s] is [t]. *)
Fixpoint endswith (s t : string) : bool :=
  String.eqb s t || match s with EmptyString => false | String _ r => endswith r t end.

(** [s.rstrip(c)] for one character. *)
Fixpoint rstrip_char (c : ascii) (s : string) : string :=
  match s with
  | EmptyString => EmptyString
  | String x r =>
      let r' := rstrip_char c r in
      if String.eqb r' "" && Ascii.eqb x c then EmptyString else String x r'
  end.

(** [s.split(sep)] for a one-character separator: empty fields are kept,
    and the result has at least one element. *)
Fixpoint split_sep_go (sep : ascii) (s cur : string) : list string :=
  match s with
  | EmptyString => [cur]
  | String c r =>
      if Ascii.eqb c sep then cur :: split_sep_go sep r ""
      else split_sep_go sep r (cur ++ String c "")
  end.

Definition split_sep (sep : ascii) (s : string) : list string := split_sep_go sep s "".

Definition _extract_repo_name (github_url : string) : string :=
  let github_url :=
    if endswith github_url ".git"
    then substring 0 (String.length github_url - 4) github_url
    else github_url in
  let parts := split_sep "/"%char (rstrip_char "/"%char github_url) in
  match parts with
  | [] => "repository"
  | _ => last parts ""
  end.

Definition ignore_dirs : list string :=
  [".git"; "__pycache__"; "venv"; "env"; "node_modules"; ".venv"].

(** A path yielded by [repo_path.rglob('*.py')]: [str(py_file)], its
    [parts] and [str(py_file.relative_to(repo_path))]. *)
Record PyPath := {
  pp_str : string;
  pp_parts : list string;
  pp_relative : string
}.

Definition empty_structure : Structure :=
  {| st_files := []; st_classes := []; st_functions := []; st_imports := [];
     st_files_parsed := 0 |}.

(** ['error' not in parsed]: None is not iterable (TypeError); every dict
    [parse_python_file] builds holds the key 'error'. *)
Definition error_not_in (parsed : PyValue) : PyExc + bool :=
  match parsed with
  | PyNone => inl (OtherError "argument of type 'NoneType' is not iterable")
  | PyDict _ => inr false
  end.

(** The body of the [if 'error' not in parsed] branch. *)
Definition record_file (structure : Structure) (relative_path : string)
    (d : ParseDict) : Structure :=
  {| st_files := app (st_files structure)
                   [{| file_path := relative_path; f_classes := pd_classes d;
                       f_functions := pd_functions d; f_imports := pd_imports d;
                       f_docstring := match pd_docstring d with
                                      | Some s => DocStr s | None => DocNone end |}];
     st_classes := app (st_classes structure) (pd_classes d);
     st_functions := app (st_functions structure) (pd_functions d);
     st_imports := app (st_imports structure) (pd_imports d);
     st_files_parsed := S (st_files_parsed structure) |}.

Section ParseRepository.

Variable cleandoc : string -> string.
Variable node_str : expr -> string.
Variable read_file : string -> PyExc + string.
Variable ast_parse : string -> string -> PyExc + list stmt.

(** One iteration of the loop over [python_files]; [inl e] is an exception
    leaving the loop. [except Exception] catches all but [NonException]. *)
Definition parse_repository_step (structure : Structure) (py_file : PyPath)
    : PyExc + Structure :=
  if existsb (fun ignore_dir => existsb (String.eqb ignore_dir) (pp_parts py_file))
             ignore_dirs
  then inr structure
  else
    let caught (e : PyExc) :=
      match e with NonException _ => inl e | _ => inr structure end in
    match parse_python_file cleandoc node_str read_file ast_parse (pp_str py_file) with
    | Raised e => caught e
    | Returned parsed =>
        match error_not_in parsed, parsed with
        | inl e, _ => caught e
        | inr true, PyDict d => inr (record_file structure (pp_relative py_file) d)
        | inr _, _ => inr structure
        end
    end.

Definition _parse_repository (python_files : list PyPath) : PyExc + Structure :=
  fold_left (fun acc py_file =>
               match acc with
               | inl e => inl e
               | inr structure => parse_repository_step structure py_file
               end)
            python_files (inr empty_structure).

End ParseRepository.

End RepoAnalyzerExtra.

(** ** Extraction of the JSON text from a reply
    (ClaudeService.analyze_impact and generate_code, services/claude_service.py) *)
Module ClaudeReply.

(** Index of the first occurrence of [needle] in [s], counting from [i]. *)
Fixpoint find_go (needle s : string) (i : nat) : option nat :=
  if prefix needle s then Some i
  else match s with EmptyString => None | String _ r => find_go needle r (S i) end.

(** [hay.find(needle, start)] for [start >= 0]. *)
Definition find (needle hay : string) (start : Z) : Z :=
  let st := Z.to_nat start in
  if Nat.ltb (String.length hay) st then (-1)%Z
  else match find_go needle (substring st (String.length hay - st) hay) st with
       | Some i => Z.of_nat i
       | None => (-1)%Z
       end.

(** A slice bound: negative counts from the end; clamped to [0, len]. *)
Definition slice_index (len : nat) (i : Z) : nat :=
  if (i <? 0)%Z then Z.to_nat (Z.max 0 (Z.of_nat len + i))
  else Nat.min (Z.to_nat i) len.

(** [s[a:b]] *)
Definition slice (s : string) (a b : Z) : string :=
  let a' := slice_index (String.length s) a in
  let b' := slice_index (String.length s) b in
  substring a' (b' - a') s.

Fixpoint lstrip_ws (s : string) : string :=
  match s with
  | EmptyString => EmptyString
  | String c r => if is_space c then lstrip_ws r else s
  end.

Fixpoint rstrip_ws (s : string) : string :=
  match s with
  | EmptyString => EmptyString
  | String c r =>
      let r' := rstrip_ws r in
      if String.eqb r' "" && is_space c then EmptyString else String c r'
  end.

(** [str.strip()] *)
Definition strip (s : string) : string := rstrip_ws (lstrip_ws s).

(** The text handed to [json.loads]. *)
Definition extract_json_text (answer : string) : string :=
  if contains "```json" answer then
    let json_start := (find "```json" answer 0 + 7)%Z in
    let json_end := find "```" answer json_start in
    strip (slice answer json_start json_end)
  else if contains "```" answer then
    let json_start := (find "```" answer 0 + 3)%Z in
    let json_end := find "```" answer json_start in
    strip (slice answer json_start json_end)
  else answer.

End ClaudeReply.

(** ** str.format, IMPACT_ANALYSIS_PROMPT and the call to the API
    (ClaudeService.analyze_impact, services/claude_service.py 94-176;
    ImpactDetector.analyze_change_impact, services/impact_detector.py 47-112) *)
Module ImpactAnalysis.
Import ImpactDetector ClaudeReply.

(** The exceptions [str.format] raises. *)
Inductive PyError :=
| KeyError (key : string)
| IndexError (msg : string)
| ValueError (msg : string).

(** Where the scan of a format string stands: in literal text, after a
    '{', inside a replacement field (its name so far), after a '}'. *)
Inductive FmtState := FLit | FOpen | FField (name : string) | FClose.

(** [kwargs[key]] *)
Fixpoint lookup_kw (key : string) (kwargs : list (string * string)) : option string :=
  match kwargs with
  | [] => None
  | (k, v) :: r => if String.eqb k key then Some v else lookup_kw key r
  end.

Definition app_ok (pre : string) (r : PyError + string) : PyError + string :=
  match r with inl e => inl e | inr s => inr (pre ++ s) end.

(** [template.format] with keyword arguments, left to right: '{{' and '}}' are literal
    braces, [{name}] is replaced by [kwargs[name]]. A field name is read
    whole up to its '}'; conversions ('!'), format specs (':'), attribute
    and index access in a field are not modelled (the templates use plain
    names). *)
Fixpoint format_scan (kwargs : list (string * string)) (st : FmtState) (s : string)
    : PyError + string :=
  match s with
  | EmptyString =>
      match st with
      | FLit => inr ""
      | FOpen => inl (ValueError "Single '{' encountered in format string")
      | FField _ => inl (ValueError "expected '}' before end of string")
      | FClose => inl (ValueError "Single '}' encountered in format string")
      end
  | String c r =>
      match st with
      | FLit =>
          if Ascii.eqb c "{" then format_scan kwargs FOpen r
          else if Ascii.eqb c "}" then format_scan kwargs FClose r
          else app_ok (String c "") (format_scan kwargs FLit r)
      | FOpen =>
          if Ascii.eqb c "{" then app_ok "{" (format_scan kwargs FLit r)
          else if Ascii.eqb c "}" then
            inl (IndexError "Replacement index 0 out of range for positional args tuple")
          else format_scan kwargs (FField (String c "")) r
      | FField name =>
          if Ascii.eqb c "}" then
            match lookup_kw name kwargs with
            | Some v => app_ok v (format_scan kwargs FLit r)
            | None => inl (KeyError name)
            end
          else if Ascii.eqb c "{" then inl (ValueError "unexpected '{' in field name")
          else format_scan kwargs (FField (name ++ String c "")) r
      | FClose =>
          if Ascii.eqb c "}" then app_ok "}" (format_scan kwargs FLit r)
          else inl (ValueError "Single '}' encountered in format string")
      end
  end.

Definition format (template : string) (kwargs : list (string * string)) : PyError + string :=
  format_scan kwargs FLit template.

Definition dq (s : string) : string :=
  String (ascii_of_nat 34) (s ++ String (ascii_of_nat 34) "").

(** utils/prompt_templates.py: the template's lines, joined by newlines. *)
Definition IMPACT_ANALYSIS_PROMPT : string :=
  String.concat (String (ascii_of_nat 10) "") [
    "You are analyzing the impact of a proposed code change.";
    "";
    "Current Codebase Structure:";
    "{repo_structure}";
    "";
    "Dependency Graph:";
    "{dependency_graph}";
    "";
    "Additional Documentation (PDFs):";
    "{pdf_documents}";
    "";
    "Proposed Change:";
    "{change_description}";
    "";
    "Please analyze:";
    "1. Which files and modules will be affected?";
    "2. Are there any existing features that overlap with this change?";
    "3. Does this change conflict with any documented requirements or specifications?";
    "4. What are the potential risks or conflicts?";
    "5. What is your recommendation?";
    "";
    "Respond in JSON format:";
    "{{";
    "    " ++ dq "affected_files" ++ ": [" ++ dq "file1.py" ++ ", " ++ dq "file2.py" ++ "],";
    "    " ++ dq "affected_features" ++ ": [" ++ dq "feature1" ++ ", " ++ dq "feature2" ++ "],";
    "    " ++ dq "overlaps" ++ ": [" ++ dq "overlap description" ++ "],";
    "    " ++ dq "risks" ++ ": [" ++ dq "risk1" ++ ", " ++ dq "risk2" ++ "],";
    "    " ++ dq "risk_level" ++ ": " ++ dq "low|medium|high|critical" ++ ",";
    "    " ++ dq "recommendation" ++ ": " ++ dq "detailed recommendation";
    "}}"].

(** The dict [json.loads] gives back, each key possibly missing. *)
Record ImpactJson := {
  ij_affected_files : option (list string);
  ij_affected_features : option (list string);
  ij_overlaps : option (list string);
  ij_risks : option (list string);
  ij_risk_level : option string;
  ij_recommendation : option string
}.

(** The dict used when [json.loads] raises JSONDecodeError. *)
Definition parse_fallback (answer : string) : ImpactJson := {|
  ij_affected_files := Some []; ij_affected_features := Some [];
  ij_overlaps := Some []; ij_risks := Some ["Unable to parse detailed analysis"];
  ij_risk_level := Some "medium"; ij_recommendation := Some answer |}.

Section Claude.

(** [json.dumps(..., indent=2)] of the index and of the dependency graph. *)
Variable dumps_structure : Structure -> string.
Variable dumps_graph : list Edge -> string.
(** [self._call_claude_api(...)] on a prompt, then the text of the reply's
    first block. *)
Variable call_claude_api : string -> string.
(** [json.loads]: [None] where it raises JSONDecodeError. *)
Variable json_loads : string -> option ImpactJson.

(** ClaudeService.analyze_impact. Cost tracking and the fields tokens_used
    and cost of the returned dict are not modelled; neither is its
    risk_level, which the caller does not read. *)
Definition analyze_impact (change_request : string) (structure : Structure)
    (edges : list Edge) : PyError + Opinion :=
  match format IMPACT_ANALYSIS_PROMPT
          [("repo_structure", dumps_structure structure);
           ("dependency_graph", dumps_graph edges);
           ("change_description", change_request)] with
  | inl e => inl e
  | inr prompt =>
      let answer := extract_json_text (call_claude_api prompt) in
      let impact_data :=
        match json_loads answer with Some d => d | None => parse_fallback answer end in
      inr {| op_affected_files := Some (get_list (ij_affected_files impact_data));
             op_affected_features := Some (get_list (ij_affected_features impact_data));
             op_warnings := Some (get_list (ij_risks impact_data)
                                  ++ get_list (ij_overlaps impact_data))%list;
             op_recommendation :=
               Some (match ij_recommendation impact_data with Some r => r | None => "" end) |}
  end.

(** ImpactDetector.analyze_change_impact: the reply of analyze_impact, then
    the report of lines 78-112. The 'pdf_documents' entry of repo_context is
    never read by analyze_impact, so it is left out. *)
Definition analyze_change_impact (change_request : string) (repo_data : RepoData)
    : PyError + Report :=
  match analyze_impact change_request (rd_structure repo_data) (rd_edges repo_data) with
  | inl e => inl e
  | inr claude_analysis =>
      inr (analyze_change_impact_from change_request repo_data claude_analysis)
  end.

End Claude.

End ImpactAnalysis.

(** ** Structural recursion over parsed statements *)
Module ParserAux.
Import ASTParser.

(** Induction over statements, with the nested statement lists. *)
Fixpoint stmt_ind' (P : stmt -> Prop)
    (Hc : forall n d b body, Forall P body -> P (SClassDef n d b body))
    (Hf : forall n a r d body, Forall P body -> P (SFunctionDef n a r d body))
    (Hi : forall names, P (SImport names))
    (Hif : forall m names, P (SImportFrom m names))
    (He : forall e, P (SExpr e))
    (Ho : forall ch, Forall P ch -> P (SOther ch))
    (s : stmt) {struct s} : P s :=
  let fix go (l : list stmt) : Forall P l :=
    match l with
    | [] => Forall_nil P
    | x :: r => Forall_cons x (stmt_ind' P Hc Hf Hi Hif He Ho x) (go r)
    end in
  match s with
  | SClassDef n d b body => Hc n d b body (go body)
  | SFunctionDef n a r d body => Hf n a r d body (go body)
  | SImport names => Hi names
  | SImportFrom m names => Hif m names
  | SExpr e => He e
  | SOther ch => Ho ch (go ch)
  end.

(** The class definitions, function definitions and imported names a
    statement holds at any depth. *)
Fixpoint count_classes (s : stmt) : nat :=
  match s with
  | SClassDef _ _ _ body => S (list_sum (map count_classes body))
  | SFunctionDef _ _ _ _ body => list_sum (map count_classes body)
  | SOther ch => list_sum (map count_classes ch)
  | _ => 0
  end.

Fixpoint count_functions (s : stmt) : nat :=
  match s with
  | SClassDef _ _ _ body => list_sum (map count_functions body)
  | SFunctionDef _ _ _ _ body => S (list_sum (map count_functions body))
  | SOther ch => list_sum (map count_functions ch)
  | _ => 0
  end.

Fixpoint count_imports (s : stmt) : nat :=
  match s with
  | SClassDef _ _ _ body => list_sum (map count_imports body)
  | SFunctionDef _ _ _ _ body => list_sum (map count_imports body)
  | SImport names => length names
  | SImportFrom _ names => length names
  | SExpr _ => 0
  | SOther ch => list_sum (map count_imports ch)
  end.

End ParserAux.
Module ParserAux2.
Import ASTParser.
(** The flags the visitor gives the records it collects: standalone
    functions are not methods and have no class; the methods of a class
    are methods of that class. *)
Definition visitor_ok (st : VState) : Prop :=
  (forall f, In f (functions st) -> fn_is_method f = false /\ fn_class f = None) /\
  (forall c, In c (classes st) -> forall m, In m (cls_methods c) ->
     fn_is_method m = true /\ fn_class m = Some (cls_name c)).

(** What one visit does to the instance, for the declarations and imported
    names it meets. *)
Definition visit_post (st st' : VState) (cc cf ci : nat) : Prop :=
  current_class st' = None /\
  length (classes st') = length (classes st) + cc /\
  length (functions st') = length (functions st) + cf /\
  length (imports st') = length (imports st) + ci /\
  (visitor_ok st -> visitor_ok st').
End ParserAux2.

(** ** Relations between the index and the dependency graph *)
Module DepGraphAux.
Import DepGraph.

(** [v] is the node [f"{u}::{name}"] of a class or function of the
    indexed file [u]. *)
Definition contains_rel (files : list FileInfo) (u v : string) : Prop :=
  exists f, In f files /\ file_path f = u /\
    exists nm, v = (u ++ "::" ++ nm)%string /\
      (In nm (map cls_name (f_classes f)) \/ In nm (map fn_name (f_functions f))).

(** The indexed file [u] has a from-import whose module matches the
    indexed file [v], and [v] is not [u]. *)
Definition import_rel (files : list FileInfo) (u v : string) : Prop :=
  exists f, In f files /\ file_path f = u /\
    exists imp, In imp (f_imports f) /\ imp_type imp = "from_import" /\
      In v (import_targets files (imp_module imp)) /\ v <> u.

End DepGraphAux.

(** ** Facts about the impact detector *)
Module ImpactDetectorFacts.
Import ImpactDetector Aux.

Lemma set_add_In (x y : string) (s : list string) :
  In y (set_add x s) <-> y = x \/ In y s.
Proof.
  unfold set_add. destruct (existsb (String.eqb x) s) eqn:E.
  - apply existsb_exists in E as [z [Hz Hxz]]. apply String.eqb_eq in Hxz.
    subst z. split; [tauto|]. intros [->|H]; auto.
  - rewrite in_app_iff. simpl. split.
    + intros [H|[H|[]]]; auto.
    + intros [H|H]; auto.
Qed.

Lemma set_add_NoDup (x : string) (s : list string) :
  NoDup s -> NoDup (set_add x s).
Proof.
  intros Hs. unfold set_add. destruct (existsb (String.eqb x) s) eqn:E; auto.
  apply NoDup_app; [exact Hs | repeat constructor; intros [] |].
  intros y Hy [<-|[]].
  assert (existsb (String.eqb x) s = true) as E'.
  { apply existsb_exists. exists x. split; auto. apply String.eqb_refl. }
  congruence.
Qed.

Lemma fold_set_add_spec (l acc : list string) :
  NoDup acc ->
  NoDup (fold_left (fun acc x => set_add x acc) l acc) /\
  (forall y, In y (fold_left (fun acc x => set_add x acc) l acc) <-> In y acc \/ In y l).
Proof.
  revert acc. induction l as [|x l IH]; intros acc Hacc; simpl.
  - split; auto. intros y. tauto.
  - destruct (IH (set_add x acc) (set_add_NoDup x acc Hacc)) as [Hn Hi].
    split; auto. intros y. rewrite Hi, set_add_In. simpl. intuition (subst; auto).
Qed.

Lemma set_of_list_spec (l : list string) :
  NoDup (set_of_list l) /\ (forall y, In y (set_of_list l) <-> In y l).
Proof.
  destruct (fold_set_add_spec l [] (NoDup_nil _)) as [Hn Hi].
  split; auto. intros y. unfold set_of_list. rewrite Hi. simpl. tauto.
Qed.

Lemma expand_fold_spec (initial_files : list string) (edges : list Edge)
    (acc : list string) :
  NoDup acc ->
  NoDup (fold_left (fun all_files edge =>
       if expansion_step initial_files edge
       then set_add (target edge) all_files else all_files) edges acc) /\
  (forall y, In y (fold_left (fun all_files edge =>
       if expansion_step initial_files edge
       then set_add (target edge) all_files else all_files) edges acc) <->
     In y acc \/ exists e, In e edges /\ expansion_step initial_files e = true
                           /\ target e = y).
Proof.
  revert acc. induction edges as [|e edges IH]; intros acc Hacc; simpl.
  - split; auto. intros y. split; [tauto|]. intros [H|[e [[] _]]]; auto.
  - destruct (expansion_step initial_files e) eqn:Estep.
    + destruct (IH _ (set_add_NoDup (target e) acc Hacc)) as [Hn Hi].
      split; auto. intros y. rewrite Hi, set_add_In. split.
      * intros [[->|H]|[e' [He' [Hs Ht]]]]; [right; exists e; auto|auto|].
        right. exists e'. auto.
      * intros [H|[e' [[<-|He'] [Hs Ht]]]]; auto.
        right. exists e'. auto.
    + destruct (IH _ Hacc) as [Hn Hi]. split; auto. intros y. rewrite Hi. split.
      * intros [H|[e' [He' [Hs Ht]]]]; auto. right. exists e'. auto.
      * intros [H|[e' [[<-|He'] [Hs Ht]]]]; [auto|congruence|].
        right. exists e'. auto.
Qed.

End ImpactDetectorFacts.

Module ImpactDetectorClaims.
Import ImpactDetector ImpactAnalysis ImpactDetectorFacts SpecWords Aux.

(** C2: calculate_risk_level follows the rule table in its fixed priority
    order: critical iff affects_core and w > 3; else high iff affects_core or
    n > 8; else medium iff has_overlaps or n > 3; else low. With n = 9, no
    core module, no overlap and no warning the level is high. *)
Theorem calculate_risk_level_rule_table :
  (forall d : ImpactData,
     let n := length (affected_files d) in
     let w := length (warnings d) in
     (calculate_risk_level d = critical <->
        affects_core d = true /\ 3 < w) /\
     (calculate_risk_level d = high <->
        (affects_core d = true /\ w <= 3) \/ (affects_core d = false /\ 8 < n)) /\
     (calculate_risk_level d = medium <->
        affects_core d = false /\ n <= 8 /\ (has_overlaps d = true \/ 3 < n)) /\
     (calculate_risk_level d = low <->
        affects_core d = false /\ has_overlaps d = false /\ n <= 3)) /\
  calculate_risk_level {| affected_files := repeat "f.py" 9; has_overlaps := false;
                          affects_core := false; warnings := [] |} = high.
Proof.
  split; [|reflexivity].
  intros d n w. unfold calculate_risk_level. fold n w.
  destruct (affects_core d), (has_overlaps d);
    destruct (Nat.ltb_spec 3 w), (Nat.ltb_spec 8 n), (Nat.ltb_spec 3 n);
    simpl; repeat split; intros; try discriminate; try reflexivity;
    repeat match goal with H : _ /\ _ |- _ => destruct H | H : _ \/ _ |- _ => destruct H end;
    try discriminate; try lia; auto.
Qed.

(** C3 counterexample: the seed file auth.py makes the edge out of
    services/auth.py fire, because the source is tested by substring, so
    models/user.py is added although no edge leaves a seed member. *)
Lemma expand_affected_files_substring_counterexample :
  let seed := ["auth.py"] in
  let edges := [{| source := "services/auth.py"; target := "models/user.py";
                   etype := "imports" |}] in
  In "models/user.py" (expand_affected_files seed edges) /\
  ~ claim_expanded_member seed edges "models/user.py".
Proof.
  simpl. split.
  - vm_compute. auto.
  - intros [[H|[]]|[e [[<-|[]] [_ [[H|[]] _]]]]]; discriminate.
Qed.

(** C3 (amended): the expanded set, without duplicates, is the seed set
    together with the target of each imports edge whose source path contains
    some seed path as a substring; targets are not expanded again. *)
Theorem expand_affected_files_one_pass (initial_files : list string)
    (edges : list Edge) :
  NoDup (expand_affected_files initial_files edges) /\
  forall y, In y (expand_affected_files initial_files edges) <->
    In y initial_files \/
    exists e, In e edges /\ etype e = "imports" /\
      (exists af, In af initial_files /\ contains af (source e) = true) /\
      target e = y.
Proof.
  destruct (set_of_list_spec initial_files) as [Hn0 Hi0].
  destruct (expand_fold_spec initial_files edges _ Hn0) as [Hn Hi].
  split; [exact Hn|]. intros y. unfold expand_affected_files.
  change (fun all_files edge =>
            if existsb (fun af => contains af (source edge)) initial_files
               && String.eqb (etype edge) "imports"
            then set_add (target edge) all_files else all_files)
    with (fun all_files edge =>
            if expansion_step initial_files edge
            then set_add (target edge) all_files else all_files).
  rewrite Hi, Hi0. unfold expansion_step.
  split; intros [H|[e [He [Hs Ht]]]]; auto; right; exists e.
  - apply andb_prop in Hs as [Hs1 Hs2]. apply existsb_exists in Hs1.
    apply String.eqb_eq in Hs2. auto.
  - destruct Ht as [Hex Ht]. repeat split; auto.
    apply andb_true_intro; split.
    + apply existsb_exists. exact Hex.
    + apply String.eqb_eq. exact Hs.
Qed.




(** C5: for fixed has_overlaps, affects_core and warning count, a larger
    affected-file count never yields a lower risk level. *)
Theorem calculate_risk_level_monotone (d1 d2 : ImpactData)
    (Hov : has_overlaps d1 = has_overlaps d2)
    (Hcore : affects_core d1 = affects_core d2)
    (Hw : length (warnings d1) = length (warnings d2))
    (Hn : length (affected_files d1) <= length (affected_files d2)) :
  risk_rank (calculate_risk_level d1) <= risk_rank (calculate_risk_level d2).
Proof.
  unfold calculate_risk_level. rewrite Hov, Hcore, Hw.
  destruct (affects_core d2), (has_overlaps d2);
    destruct (Nat.ltb_spec 3 (length (warnings d2)));
    destruct (Nat.ltb_spec 8 (length (affected_files d1)));
    destruct (Nat.ltb_spec 8 (length (affected_files d2)));
    destruct (Nat.ltb_spec 3 (length (affected_files d1)));
    destruct (Nat.ltb_spec 3 (length (affected_files d2)));
    simpl; lia.
Qed.

Lemma calculate_risk_level_monotone_witness :
  risk_rank (calculate_risk_level {| affected_files := ["a.py"]; has_overlaps := false;
                                     affects_core := false; warnings := [] |})
  <= risk_rank (calculate_risk_level {| affected_files := repeat "b.py" 9;
                                        has_overlaps := false;
                                        affects_core := false; warnings := [] |}).
Proof.
  apply calculate_risk_level_monotone; simpl; try reflexivity; lia.
Defined.

(** C7 counterexample: with a reply of the API that has no content (the
    text "{}", read as an empty dict), an empty index and an empty graph, the
    analyzer raises KeyError 'pdf_documents'; the report of lines 78-112 on
    the same empty reply would be the complete low-risk one. *)
Lemma analyze_change_impact_keyerror_counterexample :
  let repo_data :=
    {| rd_structure := {| st_files := []; st_classes := []; st_functions := [];
                          st_imports := []; st_files_parsed := 0 |};
       rd_edges := [] |} in
  analyze_change_impact (fun _ => "{}") (fun _ => "{}") (fun _ => "{}")
    (fun _ => Some {| ij_affected_files := None; ij_affected_features := None;
                      ij_overlaps := None; ij_risks := None; ij_risk_level := None;
                      ij_recommendation := None |})
    "add logging" repo_data = inl (KeyError "pdf_documents") /\
  analyze_change_impact_from "add logging" repo_data no_opinion
  = {| rep_risk_level := low; rep_affected_files := [];
       rep_affected_features := []; rep_warnings := [];
       rep_recommendation := ""; rep_should_proceed := true;
       rep_requires_approval := false; rep_overlaps := [] |}.
Proof. split; vm_compute; reflexivity. Qed.

(** C7: the analyzer never returns a report. IMPACT_ANALYSIS_PROMPT has a
    field pdf_documents that analyze_impact does not pass to format, so for
    every change request, index, graph and reply of the API the call raises
    KeyError 'pdf_documents', before the API is called and before any
    fallback of lines 78-112 is reached. *)
Theorem analyze_change_impact_always_raises
    (dumps_structure : Structure -> string) (dumps_graph : list Edge -> string)
    (call_claude_api : string -> string) (json_loads : string -> option ImpactJson)
    (change_request : string) (repo_data : RepoData) :
  analyze_change_impact dumps_structure dumps_graph call_claude_api json_loads
    change_request repo_data = inl (KeyError "pdf_documents").
Proof. vm_compute. reflexivity. Qed.

End ImpactDetectorClaims.

(** ** Facts about the relevance ranker *)
Module RankerFacts.
Local Open Scope list_scope.
Import Ranker Aux.

Lemma add_matches_sum (terms : list string) (hay : string) (w score : nat) :
  add_matches terms hay w score =
  score + list_sum (map (fun t => if contains t hay then w else 0) terms).
Proof.
  unfold add_matches. revert score.
  induction terms as [|t terms IH]; intros score; simpl; [lia|].
  rewrite IH. destruct (contains t hay); lia.
Qed.

Lemma list_sum_map_add {A : Type} (f g : A -> nat) (l : list A) :
  list_sum (map (fun x => f x + g x) l) = list_sum (map f l) + list_sum (map g l).
Proof. induction l as [|x l IH]; simpl; lia. Qed.

Lemma list_sum_map_ext {A : Type} (f g : A -> nat) (l : list A) :
  (forall x, f x = g x) -> list_sum (map f l) = list_sum (map g l).
Proof. intros H. f_equal. apply map_ext. exact H. Qed.

(** Exchanging the two loops of a double sum. *)
Lemma list_sum_swap {A B : Type} (f : A -> B -> nat) (la : list A) (lb : list B) :
  list_sum (map (fun a => list_sum (map (f a) lb)) la) =
  list_sum (map (fun b => list_sum (map (fun a => f a b) la)) lb).
Proof.
  induction la as [|a la IH]; simpl.
  - induction lb; simpl; auto.
  - rewrite IH. rewrite <- list_sum_map_add. reflexivity.
Qed.

Lemma list_sum_indicator {A : Type} (P : A -> bool) (w : nat) (l : list A) :
  list_sum (map (fun x => if P x then w else 0) l) = w * length (filter P l).
Proof.
  induction l as [|x l IH]; simpl; [lia|]. destruct (P x); simpl; lia.
Qed.

Lemma fold_add_matches_sum {A : Type} (name : A -> string) (terms : list string)
    (w : nat) (items : list A) (score : nat) :
  fold_left (fun score it => add_matches terms (name it) w score) items score =
  score + list_sum (map (fun t => w * length (filter (fun it => contains t (name it)) items)) terms).
Proof.
  revert score. induction items as [|it items IH]; intros score; simpl.
  - induction terms; simpl; lia.
  - rewrite IH, add_matches_sum.
    rewrite <- Nat.add_assoc. f_equal.
    rewrite <- list_sum_map_add. apply list_sum_map_ext. intros t.
    destruct (contains t (name it)); simpl; lia.
Qed.

Lemma insert_desc_perm (x : Scored) (l : list Scored) :
  Permutation (insert_desc x l) (x :: l).
Proof.
  induction l as [|y l IH]; simpl; auto.
  destruct (Nat.leb (relevance_score x) (relevance_score y)); auto.
  rewrite IH. apply perm_swap.
Qed.

Lemma insert_desc_hd (x y : Scored) (l : list Scored) :
  HdRel desc y l -> desc y x -> HdRel desc y (insert_desc x l).
Proof.
  intros Hl Hyx. destruct l as [|z l]; simpl; [constructor; exact Hyx|].
  destruct (Nat.leb (relevance_score x) (relevance_score z)); constructor; auto.
  inversion Hl; auto.
Qed.

Lemma insert_desc_sorted (x : Scored) (l : list Scored) :
  Sorted desc l -> Sorted desc (insert_desc x l).
Proof.
  induction l as [|y l IH]; intros Hs; simpl; [repeat constructor|].
  apply Sorted_inv in Hs as [Hs Hhd].
  destruct (Nat.leb_spec (relevance_score x) (relevance_score y)).
  - constructor; auto. apply insert_desc_hd; auto.
  - constructor; [constructor; auto|]. constructor. unfold desc. lia.
Qed.

Lemma filter_score_below (s : nat) (l : list Scored) :
  Forall (fun z => relevance_score z < s) l -> filter (score_is s) l = [].
Proof.
  induction 1 as [|z l Hz _ IH]; simpl; auto.
  unfold score_is. destruct (Nat.eqb_spec (relevance_score z) s); [lia|auto].
Qed.

Lemma insert_desc_stable (s : nat) (x : Scored) (l : list Scored) :
  Sorted desc l ->
  filter (score_is s) (insert_desc x l) = filter (score_is s) l ++ filter (score_is s) [x].
Proof.
  induction l as [|y l IH]; intros Hs; [reflexivity|].
  pose proof (Sorted_StronglySorted
                (fun a b c (Hab : desc a b) (Hbc : desc b c) =>
                   (Nat.le_trans _ _ _ Hbc Hab : desc a c)) Hs) as Hss.
  apply Sorted_inv in Hs as [Hs _].
  change (insert_desc x (y :: l)) with
    (if Nat.leb (relevance_score x) (relevance_score y)
     then y :: insert_desc x l else x :: y :: l).
  destruct (Nat.leb_spec (relevance_score x) (relevance_score y)).
  - replace (y :: insert_desc x l) with ([y] ++ insert_desc x l) by reflexivity.
    replace (y :: l) with ([y] ++ l) by reflexivity.
    rewrite !filter_app, IH by exact Hs. apply app_assoc.
  - replace (x :: y :: l) with ([x] ++ y :: l) by reflexivity.
    rewrite filter_app. destruct (score_is s x) eqn:Ex.
    + unfold score_is in Ex. apply Nat.eqb_eq in Ex. subst s.
      rewrite (filter_score_below _ (y :: l)); [rewrite app_nil_r; reflexivity|].
      apply StronglySorted_inv in Hss as [_ Hall].
      constructor; [cbv beta; lia|].
      eapply Forall_impl; [|exact Hall]. unfold desc. intros z Hz. lia.
    + assert (filter (score_is s) [x] = []) as E0 by (simpl; rewrite Ex; reflexivity).
      rewrite E0, app_nil_r. reflexivity.
Qed.

Lemma sort_desc_fold_spec (l acc : list Scored) :
  Sorted desc acc ->
  let r := fold_left (fun acc x => insert_desc x acc) l acc in
  Permutation r (acc ++ l) /\ Sorted desc r /\
  (forall s, filter (score_is s) r = filter (score_is s) acc ++ filter (score_is s) l).
Proof.
  revert acc. induction l as [|x l IH]; intros acc Hs; simpl.
  - rewrite app_nil_r. split; [reflexivity|]. split; [exact Hs|].
    intros s. simpl. rewrite app_nil_r. reflexivity.
  - destruct (IH (insert_desc x acc) (insert_desc_sorted x acc Hs)) as [Hp [Hso Hf]].
    repeat split; auto.
    + rewrite Hp. rewrite insert_desc_perm. simpl. apply Permutation_middle.
    + intros s. rewrite Hf, insert_desc_stable by exact Hs.
      rewrite <- app_assoc. simpl. destruct (score_is s x); reflexivity.
Qed.

Lemma sort_desc_spec (l : list Scored) :
  Permutation (sort_desc l) l /\ Sorted desc (sort_desc l) /\
  (forall s, filter (score_is s) (sort_desc l) = filter (score_is s) l).
Proof.
  destruct (sort_desc_fold_spec l [] (Sorted_nil _)) as [Hp [Hs Hf]].
  unfold sort_desc. repeat split; auto.
Qed.

End RankerFacts.

Module RankerClaims.
Import Ranker RankerFacts SpecWords Aux.
Local Open Scope list_scope.

Lemma score_file_spec (terms : list string) (f : FileInfo) :
  f_docstring f <> DocNone -> score_file terms f = Ok (score_spec terms f).
Proof.
  intros Hdoc. unfold score_file, score_spec.
  rewrite (fold_add_matches_sum (fun c => lower (cls_name c))).
  rewrite (fold_add_matches_sum (fun g => lower (fn_name g))).
  destruct (f_docstring f) as [| |d]; [|contradiction|]; cbn [doc_text];
    rewrite !add_matches_sum; f_equal; rewrite Nat.add_0_l;
    rewrite <- !list_sum_map_add; apply list_sum_map_ext; intros t; unfold b2n;
    repeat match goal with |- context [contains ?a ?b] => destruct (contains a b) end;
    lia.
Qed.

Lemma score_file_none (terms : list string) (f : FileInfo) :
  f_docstring f = DocNone -> score_file terms f = Raise "AttributeError".
Proof. intros Hdoc. unfold score_file. rewrite Hdoc. reflexivity. Qed.

Lemma score_files_raise_stays (get_file_content : option string -> string -> string)
    (local_path : option string) (terms : list string) (files : list FileInfo)
    (e : string) :
  fold_left
    (fun acc file_info =>
       bind acc (fun scored_files =>
       bind (score_file terms file_info) (fun score =>
       Ok (if Nat.ltb 0 score
           then app scored_files
                  [{| sc_file_path := file_path file_info;
                      relevance_score := score;
                      sc_content := get_file_content local_path (file_path file_info) |}]
           else scored_files))))
    files (Raise e) = Raise e.
Proof. induction files as [|f files IH]; simpl; auto. Qed.

Lemma score_files_from (get_file_content : option string -> string -> string)
    (local_path : option string) (terms : list string) (files : list FileInfo)
    (acc : list Scored) :
  (forall f, In f files -> f_docstring f <> DocNone) ->
  fold_left
    (fun acc file_info =>
       bind acc (fun scored_files =>
       bind (score_file terms file_info) (fun score =>
       Ok (if Nat.ltb 0 score
           then app scored_files
                  [{| sc_file_path := file_path file_info;
                      relevance_score := score;
                      sc_content := get_file_content local_path (file_path file_info) |}]
           else scored_files))))
    files (Ok acc)
  = Ok (acc ++ candidates get_file_content local_path terms files).
Proof.
  revert acc. induction files as [|f files IH]; intros acc Hdocs; simpl.
  - rewrite app_nil_r. reflexivity.
  - rewrite score_file_spec by (apply Hdocs; left; reflexivity). simpl.
    rewrite IH by (intros g Hg; apply Hdocs; right; exact Hg).
    destruct (Nat.ltb 0 (score_spec terms f)); simpl;
      [rewrite <- app_assoc; reflexivity | reflexivity].
Qed.

Lemma score_files_is_raise (get_file_content : option string -> string -> string)
    (local_path : option string) (terms : list string) (files : list FileInfo)
    (acc : list Scored) :
  is_raise
    (fold_left
      (fun acc file_info =>
         bind acc (fun scored_files =>
         bind (score_file terms file_info) (fun score =>
         Ok (if Nat.ltb 0 score
             then app scored_files
                    [{| sc_file_path := file_path file_info;
                        relevance_score := score;
                        sc_content := get_file_content local_path (file_path file_info) |}]
             else scored_files))))
      files (Ok acc)) = true
  <-> exists f, In f files /\ f_docstring f = DocNone.
Proof.
  revert acc. induction files as [|f files IH]; intros acc; simpl.
  - split; [discriminate|]. intros [f [[] _]].
  - destruct (f_docstring f) eqn:Hd.
    2: { rewrite score_file_none by exact Hd. simpl.
         rewrite score_files_raise_stays. split; [|reflexivity].
         intros _. exists f. auto. }
    all: rewrite score_file_spec by congruence; simpl; rewrite IH;
      split; [intros [g [Hg Hn]]; exists g; auto
             |intros [g [[<-|Hg] Hn]]; [congruence|exists g; auto]].
Qed.

(** C8 counterexample: query "foo" against x.py with classes FooA and FooB:
    the code adds 1.5 once per matching class (3.0, six half points), the
    claim's reading adds 1.5 once for the term (three half points). *)
Lemma relevance_per_class_counterexample :
  let f := {| file_path := "x.py";
              f_classes := [{| cls_name := "FooA"; cls_methods := []; cls_decorators := [];
                               cls_bases := []; cls_docstring := None |};
                            {| cls_name := "FooB"; cls_methods := []; cls_decorators := [];
                               cls_bases := []; cls_docstring := None |}];
              f_functions := []; f_imports := []; f_docstring := DocStr "" |} in
  get_relevant_files (fun _ _ => "")
    (Some {| repo_local_path := None;
             repo_structure_json :=
               Some {| st_files := [f]; st_classes := []; st_functions := [];
                       st_imports := []; st_files_parsed := 1 |} |}) "foo" 5
  = Ok [{| sc_file_path := "x.py"; relevance_score := 6; sc_content := "" |}]
  /\ claim_score ["foo"] f = 3.
Proof. vm_compute. split; reflexivity. Qed.

(** C8 (amended): when no file record has a None docstring and top_k >= 0,
    the ranker returns the first top_k entries of a list that is the
    positive-score files (scored per (class, term) and per (function, term)
    pair, see [score_spec]) sorted by decreasing score, ties kept in index
    order. *)
Theorem get_relevant_files_ranking
    (get_file_content : option string -> string -> string)
    (local_path : option string) (structure : Structure) (query : string) (top_k : Z)
    (Hdocs : forall f, In f (st_files structure) -> f_docstring f <> DocNone)
    (Hk : (0 <= top_k)%Z) :
  let cands := candidates get_file_content local_path (split (lower query))
                          (st_files structure) in
  exists ranked,
    get_relevant_files get_file_content
      (Some {| repo_local_path := local_path; repo_structure_json := Some structure |})
      query top_k = Ok (firstn (Z.to_nat top_k) ranked) /\
    Permutation ranked cands /\
    Sorted (fun x y => relevance_score y <= relevance_score x) ranked /\
    (forall s, filter (fun x => Nat.eqb (relevance_score x) s) ranked
               = filter (fun x => Nat.eqb (relevance_score x) s) cands).
Proof.
  intros cands. exists (sort_desc cands).
  destruct (sort_desc_spec cands) as [Hp [Hs Hf]].
  split; [|split; [exact Hp|split; [exact Hs|exact Hf]]].
  simpl. unfold score_files. rewrite score_files_from by exact Hdocs. simpl.
  unfold py_slice_upto. apply Z.leb_le in Hk. rewrite Hk. reflexivity.
Qed.

(** Witness: query "user", top_k 2, four files in index order: a.py and
    b.py match only in their docstrings (0.5 each, a tie), c.py does not
    match, users.py matches in its name (2.0). The ranking moves users.py
    first, keeps a.py before b.py, drops c.py and cuts b.py. *)
Lemma get_relevant_files_ranking_witness :
  let mk p d := {| file_path := p; f_classes := []; f_functions := [];
                   f_imports := []; f_docstring := DocStr d |} in
  let files := [mk "a.py" "user model"; mk "b.py" "the user"; mk "c.py" "other";
                mk "users.py" ""] in
  let structure := {| st_files := files; st_classes := []; st_functions := [];
                      st_imports := []; st_files_parsed := 4 |} in
  let cands := candidates (fun _ _ => "") None (split (lower "user")) files in
  (forall f, In f files -> f_docstring f <> DocNone) /\
  (0 <= 2)%Z /\
  (exists ranked,
     get_relevant_files (fun _ _ => "")
       (Some {| repo_local_path := None; repo_structure_json := Some structure |})
       "user" 2 = Ok (firstn (Z.to_nat 2) ranked) /\
     Permutation ranked cands /\
     Sorted (fun x y => relevance_score y <= relevance_score x) ranked /\
     (forall s, filter (fun x => Nat.eqb (relevance_score x) s) ranked
                = filter (fun x => Nat.eqb (relevance_score x) s) cands)) /\
  get_relevant_files (fun _ _ => "")
    (Some {| repo_local_path := None; repo_structure_json := Some structure |})
    "user" 2
  = Ok [{| sc_file_path := "users.py"; relevance_score := 4; sc_content := "" |};
        {| sc_file_path := "a.py"; relevance_score := 1; sc_content := "" |}].
Proof.
  intros mk files structure cands.
  assert (Hd : forall f, In f files -> f_docstring f <> DocNone).
  { intros f Hf. simpl in Hf.
    repeat (destruct Hf as [<-|Hf]; [simpl; discriminate|]). destruct Hf. }
  split; [exact Hd|]. split; [lia|]. split.
  - exact (get_relevant_files_ranking (fun _ _ => "") None structure "user" 2 Hd ltac:(lia)).
  - vm_compute. reflexivity.
Defined.

(** C10: for every query, the ranker raises (AttributeError on
    [None.lower()]) exactly when some file record's docstring is None; a
    record without the key reads as "" and does not raise. *)
Theorem get_relevant_files_raises_on_none_docstring
    (get_file_content : option string -> string -> string)
    (local_path : option string) (structure : Structure) (query : string) (top_k : Z) :
  is_raise (get_relevant_files get_file_content
              (Some {| repo_local_path := local_path; repo_structure_json := Some structure |})
              query top_k) = true
  <-> exists f, In f (st_files structure) /\ f_docstring f = DocNone.
Proof.
  simpl. rewrite <- (score_files_is_raise get_file_content local_path
                       (split (lower query)) (st_files structure) []).
  unfold score_files.
  destruct (fold_left _ (st_files structure) (Ok [])); simpl; reflexivity.
Qed.

End RankerClaims.

(** ** Facts about the dependency graph builder *)
Module DepGraphFacts.
Import DepGraph SpecWords Aux.
Local Open Scope list_scope.

(** *** Strings of the form [file_path ++ "::" ++ name] *)

Lemma has_char_app (c : ascii) (s1 s2 : string) :
  has_char c (s1 ++ s2)%string = has_char c s1 || has_char c s2.
Proof.
  induction s1 as [|d s1 IH]; simpl; auto. rewrite IH. apply orb_assoc.
Qed.

Lemma qualified_name_inj (a1 a2 n1 n2 : string) :
  (a1 ++ "::" ++ n1)%string = (a2 ++ "::" ++ n2)%string ->
  has_char ":" n1 = false -> has_char ":" n2 = false ->
  a1 = a2 /\ n1 = n2.
Proof.
  revert a2. induction a1 as [|c1 a1 IH]; intros a2 H H1 H2;
    destruct a2 as [|c2 a2]; simpl in H.
  - injection H as ->. auto.
  - injection H as Hc H. destruct a2 as [|c3 a2]; simpl in H.
    + injection H as H. subst n1. discriminate.
    + injection H as Hc3 H. subst n1. rewrite has_char_app in H1.
      simpl in H1. rewrite orb_true_r in H1. discriminate.
  - injection H as Hc H. destruct a1 as [|c3 a1]; simpl in H.
    + injection H as H. subst n2. discriminate.
    + injection H as Hc3 H. subst n2. rewrite has_char_app in H2.
      simpl in H2. rewrite orb_true_r in H2. discriminate.
  - injection H as Hc H. subst c2. destruct (IH a2 H H1 H2) as [-> ->]. auto.
Qed.

Lemma qualified_name_not_py (fp nm p : string) :
  has_char "." nm = false -> (fp ++ "::" ++ nm)%string <> (p ++ ".py")%string.
Proof.
  revert p. induction fp as [|c fp IH]; intros p Hnm H; destruct p as [|d p]; simpl in H.
  - discriminate.
  - injection H as Hd H. destruct p as [|e p]; simpl in H; [discriminate|].
    injection H as He H. subst nm. rewrite has_char_app in Hnm. simpl in Hnm.
    rewrite orb_true_r in Hnm. discriminate.
  - injection H as Hc H. apply (f_equal (has_char ":")) in H.
    rewrite has_char_app in H. simpl in H. rewrite orb_true_r in H. discriminate.
  - injection H as Hc H. exact (IH p Hnm H).
Qed.

(** *** Association lists of nodes and edges *)

Lemma find_app {A : Type} (f : A -> bool) (l1 l2 : list A) :
  find f (l1 ++ l2) = match find f l1 with Some x => Some x | None => find f l2 end.
Proof. induction l1 as [|x l1 IH]; simpl; auto. destruct (f x); auto. Qed.

Lemma find_none_existsb {A : Type} (f : A -> bool) (l : list A) :
  existsb f l = false -> find f l = None.
Proof.
  induction l as [|x l IH]; simpl; auto. destruct (f x); [discriminate|auto].
Qed.

Lemma find_map_update (l : list (string * NodeAttr)) (n m : string)
    (upd : NodeAttr -> NodeAttr) :
  option_map snd
    (find (fun p => String.eqb (fst p) m)
       (map (fun p => if String.eqb (fst p) n then (fst p, upd (snd p)) else p) l)) =
  if String.eqb m n
  then option_map (fun p => upd (snd p)) (find (fun p => String.eqb (fst p) n) l)
  else option_map snd (find (fun p => String.eqb (fst p) m) l).
Proof.
  induction l as [|[k a] l IH]; simpl.
  - destruct (String.eqb m n); reflexivity.
  - destruct (String.eqb_spec k n) as [->|Hkn]; simpl.
    + destruct (String.eqb_spec n m) as [->|Hnm].
      * rewrite String.eqb_refl. reflexivity.
      * destruct (String.eqb_spec m n); [congruence|]. exact IH.
    + destruct (String.eqb_spec k m) as [->|Hkm].
      * destruct (String.eqb_spec m n); [congruence|]. reflexivity.
      * exact IH.
Qed.

Lemma node_attr_add_node (G : DiGraph) (n typ : string) (file : option string) (m : string) :
  node_attr (add_node n typ file G) m =
  if String.eqb m n
  then Some {| na_type := Some typ;
               na_file := match file with
                          | Some f => Some f
                          | None => match node_attr G n with
                                    | Some a => na_file a | None => None end
                          end |}
  else node_attr G m.
Proof.
  unfold add_node, node_attr, has_node.
  destruct (existsb (fun p => String.eqb (fst p) n) (g_nodes G)) eqn:Ex; cbn [g_nodes].
  - rewrite (find_map_update _ n m (fun a => {| na_type := Some typ;
       na_file := match file with Some f => Some f | None => na_file a end |})). destruct (String.eqb m n); auto.
    apply existsb_exists in Ex as [[k a] [Hin Hk]]. simpl in Hk.
    destruct (find (fun p => String.eqb (fst p) n) (g_nodes G)) as [[k' a']|] eqn:Hf.
    + reflexivity.
    + exfalso. apply (find_none _ _ Hf) in Hin. simpl in Hin. congruence.
  - rewrite find_app. destruct (String.eqb_spec m n) as [->|Hmn].
    + rewrite (find_none_existsb _ _ Ex). simpl. rewrite String.eqb_refl.
      destruct file; reflexivity.
    + destruct (find (fun p => String.eqb (fst p) m) (g_nodes G)); simpl; auto.
      destruct (String.eqb_spec n m); [congruence|reflexivity].
Qed.

Lemma has_node_attr (G : DiGraph) (n : string) (a : NodeAttr) :
  node_attr G n = Some a -> has_node G n = true.
Proof.
  unfold node_attr, has_node. intros H. apply existsb_exists.
  destruct (find (fun p => String.eqb (fst p) n) (g_nodes G)) as [p|] eqn:Hf;
    [|discriminate].
  exists p. split; [eapply find_some; eauto|]. apply (find_some _ _ Hf).
Qed.

Lemma ensure_node_present (G : DiGraph) (n : string) :
  has_node G n = true -> ensure_node n G = G.
Proof. unfold ensure_node. intros ->. reflexivity. Qed.

Lemma key_eqb_spec (k1 k2 : string * string) : key_eqb k1 k2 = true <-> k1 = k2.
Proof.
  destruct k1 as [a b], k2 as [c d]. unfold key_eqb. simpl.
  rewrite andb_true_iff, !String.eqb_eq. split; [intros [-> ->]; auto|].
  intros H. injection H as -> ->. auto.
Qed.

Lemma add_edge_spec (G : DiGraph) (u v t : string) :
  has_node G u = true -> has_node G v = true ->
  g_nodes (add_edge u v t G) = g_nodes G /\
  (NoDup (map fst (g_edges G)) -> NoDup (map fst (g_edges (add_edge u v t G)))) /\
  (forall k t', In (k, t') (g_edges (add_edge u v t G)) <->
                (k = (u, v) /\ t' = t) \/ (k <> (u, v) /\ In (k, t') (g_edges G))).
Proof.
  intros Hu Hv. unfold add_edge.
  rewrite (ensure_node_present G u Hu), (ensure_node_present G v Hv).
  destruct (existsb (fun e => key_eqb (fst e) (u, v)) (g_edges G)) eqn:Ex; simpl.
  - split; [reflexivity|]. split.
    + rewrite map_map. intros Hn.
      replace (map (fun x => fst (if key_eqb (fst x) (u, v) then (fst x, t) else x))
                   (g_edges G)) with (map fst (g_edges G)); [exact Hn|].
      apply map_ext. intros [k t0]. simpl. destruct (key_eqb k (u, v)); reflexivity.
    + intros k t'. rewrite in_map_iff. split.
      * intros [[k0 t0] [Heq Hin]]. simpl in Heq.
        destruct (key_eqb k0 (u, v)) eqn:Hk.
        -- apply key_eqb_spec in Hk. injection Heq as -> ->. auto.
        -- injection Heq as -> ->. right. split; auto. intros E. subst k.
           pose proof (proj2 (key_eqb_spec (u, v) (u, v)) eq_refl). congruence.
      * intros [[-> ->]|[Hk Hin]].
        -- apply existsb_exists in Ex as [[k0 t0] [Hin Hk]]. simpl in Hk.
           exists (k0, t0). simpl. rewrite Hk. apply key_eqb_spec in Hk. subst. auto.
        -- exists (k, t'). simpl. split; auto.
           destruct (key_eqb k (u, v)) eqn:E; auto. apply key_eqb_spec in E. congruence.
  - split; [reflexivity|]. split.
    + intros Hn. rewrite map_app. simpl. apply NoDup_app; auto.
      * repeat constructor. intros [].
      * intros k Hk [<-|[]]. apply in_map_iff in Hk as [[k0 t0] [Hk0 Hin]].
        simpl in Hk0. subst k0.
        assert (existsb (fun e => key_eqb (fst e) (u, v)) (g_edges G) = true) as E.
        { apply existsb_exists. exists ((u, v), t0). split; auto.
          apply key_eqb_spec. reflexivity. }
        congruence.
    + intros k t'. rewrite in_app_iff. simpl. split.
      * intros [Hin|[Heq|[]]].
        -- right. split; auto. intros ->.
           assert (existsb (fun e => key_eqb (fst e) (u, v)) (g_edges G) = true) as E.
           { apply existsb_exists. exists ((u, v), t'). split; auto.
             apply key_eqb_spec. reflexivity. }
           congruence.
        -- injection Heq as -> ->. auto.
      * intros [[-> ->]|[_ Hin]]; auto.
Qed.

Lemma node_attr_nodes (G1 G2 : DiGraph) (n : string) :
  g_nodes G1 = g_nodes G2 -> node_attr G1 n = node_attr G2 n.
Proof. unfold node_attr. intros ->. reflexivity. Qed.

Lemma fold_preserve {A : Type} (Q : DiGraph -> Prop) (g : DiGraph -> A -> DiGraph)
    (l : list A) (G : DiGraph) :
  (forall x G, In x l -> Q G -> Q (g G x)) -> Q G -> Q (fold_left g l G).
Proof.
  revert G. induction l as [|x l IH]; intros G Hstep HG; simpl; auto.
  apply IH; [intros y G' Hy; apply Hstep; right; exact Hy|].
  apply Hstep; [left; reflexivity|exact HG].
Qed.

Lemma filter_unique_key (E : list ((string * string) * string))
    (P : (string * string) * string -> bool) (x : (string * string) * string) :
  NoDup (map fst E) -> In x E -> P x = true ->
  (forall y, In y E -> P y = true -> fst y = fst x) ->
  filter P E = [x].
Proof.
  induction E as [|y E IH]; intros Hnd Hx HPx Hall; [destruct Hx|].
  simpl in Hnd. apply NoDup_cons_iff in Hnd as [Hy Hnd]. simpl.
  assert (Hnone : forall z, In z E -> P z = true -> fst z = fst y -> False).
  { intros z Hz HPz Hzy. apply Hy. rewrite <- Hzy. apply in_map. exact Hz. }
  destruct Hx as [<-|Hx].
  - rewrite HPx. f_equal.
    assert (forall z, In z E -> P z = false) as Hf.
    { intros z Hz. destruct (P z) eqn:E'; auto. exfalso.
      apply (Hnone z Hz E'). apply Hall; [right; exact Hz|exact E']. }
    clear -Hf. induction E as [|z E IH]; simpl; auto.
    rewrite Hf by (left; reflexivity). apply IH. intros w Hw. apply Hf. right. exact Hw.
  - destruct (P y) eqn:Py.
    + exfalso. apply (Hnone x Hx HPx). symmetry. apply Hall; [left; reflexivity|exact Py].
    + apply IH; auto. intros z Hz HPz. apply Hall; [right; exact Hz|exact HPz].
Qed.

Section Invariant.

Variable paths : list string.
Hypothesis Hpy : forall p, In p paths -> exists q, p = (q ++ ".py")%string.

Lemma member_not_path (fp n : string) : member fp n -> In n paths -> False.
Proof.
  intros [nm [-> Hnm]] Hin. destruct (Hpy _ Hin) as [q Hq].
  unfold plain_name in Hnm. apply andb_prop in Hnm as [_ Hdot].
  apply negb_true_iff in Hdot. exact (qualified_name_not_py fp nm q Hdot Hq).
Qed.

Lemma member_unique (fp1 fp2 n : string) : member fp1 n -> member fp2 n -> fp1 = fp2.
Proof.
  intros [n1 [-> H1]] [n2 [H H2]].
  unfold plain_name in H1, H2. apply andb_prop in H1 as [H1 _]. apply andb_prop in H2 as [H2 _].
  apply negb_true_iff in H1, H2.
  exact (proj1 (qualified_name_inj _ _ _ _ H H1 H2)).
Qed.

Lemma inv_file_path (G : DiGraph) (q : string) :
  graph_inv paths G -> is_file G q -> In q paths.
Proof.
  intros [Ha _] [a [Hq Ht]].
  destruct (Ha q a Hq) as [[_ H]|[H|[[H|H] _]]]; auto; congruence.
Qed.

Lemma is_file_has_node (G : DiGraph) (q : string) : is_file G q -> has_node G q = true.
Proof. intros [a [H _]]. exact (has_node_attr G q a H). Qed.

Lemma step_file (G : DiGraph) (p : string) :
  In p paths -> graph_inv paths G ->
  let G' := add_node p "file" None G in
  graph_inv paths G' /\ is_file G' p /\ (forall q, is_file G q -> is_file G' q).
Proof.
  intros Hp [Ha [Hb Hnd]] G'.
  assert (Hmono : forall q, is_file G q -> is_file G' q).
  { intros q [a [Hq Ht]]. unfold is_file, G'. rewrite node_attr_add_node.
    destruct (String.eqb_spec q p).
    - eexists. split; reflexivity.
    - exists a. auto. }
  assert (Hedges : g_edges G' = g_edges G).
  { unfold G', add_node. destruct (has_node G p); reflexivity. }
  split; [|split; [|exact Hmono]].
  - split; [|split].
    + intros n a. unfold G'. rewrite node_attr_add_node.
      destruct (String.eqb_spec n p) as [->|Hnp].
      * intros H. injection H as <-. left. auto.
      * intros Hn. destruct (Ha n a Hn) as [H|[H|[Ht [fp [Hf [Hm [Hfp Hin]]]]]]]; auto.
        right. right. split; auto. exists fp. fold G'. rewrite Hedges. auto.
    + intros u v t. fold G'. rewrite Hedges. intros Hin.
      destruct (Hb u v t Hin) as [H|[Ht [Hu Hv]]]; auto.
    + fold G'. rewrite Hedges. exact Hnd.
  - unfold is_file, G'. rewrite node_attr_add_node, String.eqb_refl.
    eexists. split; reflexivity.
Qed.

Lemma step_member (G : DiGraph) (fp nm t : string) :
  is_file G fp -> plain_name nm = true -> (t = "class" \/ t = "function") ->
  graph_inv paths G ->
  let n := (fp ++ "::" ++ nm)%string in
  let G' := add_edge fp n "contains" (add_node n t (Some fp) G) in
  graph_inv paths G' /\ (forall q, is_file G q -> is_file G' q).
Proof.
  intros Hfp Hnm Ht Hinv n G'.
  pose proof Hinv as [Ha [Hb Hnd]].
  assert (Hmn : member fp n) by (exists nm; auto).
  set (G1 := add_node n t (Some fp) G).
  assert (Hattr1 : forall m, node_attr G1 m =
            if String.eqb m n then Some {| na_type := Some t; na_file := Some fp |}
            else node_attr G m).
  { intros m. unfold G1. rewrite node_attr_add_node. reflexivity. }
  assert (Hfpn : fp <> n).
  { intros E. apply (member_not_path fp n Hmn). rewrite <- E.
    exact (inv_file_path G fp Hinv Hfp). }
  assert (Hhu : has_node G1 fp = true).
  { destruct Hfp as [a [Ha' _]]. apply (has_node_attr G1 fp a).
    rewrite Hattr1. destruct (String.eqb_spec fp n); [congruence|exact Ha']. }
  assert (Hhv : has_node G1 n = true).
  { apply (has_node_attr G1 n {| na_type := Some t; na_file := Some fp |}).
    rewrite Hattr1, String.eqb_refl. reflexivity. }
  destruct (add_edge_spec G1 fp n "contains" Hhu Hhv) as [Hnodes [Hnd' Hin']].
  fold G' in Hnodes, Hnd', Hin'.
  assert (Hattr : forall m, node_attr G' m =
            if String.eqb m n then Some {| na_type := Some t; na_file := Some fp |}
            else node_attr G m).
  { intros m. rewrite (node_attr_nodes G' G1 m Hnodes). apply Hattr1. }
  assert (Hmono : forall q, is_file G q -> is_file G' q).
  { intros q Hq. pose proof (inv_file_path G q Hinv Hq) as Hqp.
    destruct Hq as [a [Hq Hqt]]. exists a. rewrite Hattr.
    destruct (String.eqb_spec q n) as [->|]; [|auto].
    exfalso. exact (member_not_path fp n Hmn Hqp). }
  assert (Hedges1 : g_edges G1 = g_edges G).
  { unfold G1, add_node. destruct (has_node G n); reflexivity. }
  split; [|exact Hmono]. split; [|split].
  - intros m a. rewrite Hattr. destruct (String.eqb_spec m n) as [->|Hmn'].
    + intros H. injection H as <-. right. right. simpl. split.
      * destruct Ht as [->| ->]; auto.
      * exists fp. repeat split; auto. apply Hin'. left. auto.
    + intros Hm. destruct (Ha m a Hm) as [H|[H|[Htp [fp' [Hf [Hm' [Hfp' Hin]]]]]]]; auto.
      right. right. split; auto. exists fp'. repeat split; auto.
      apply Hin'. right. split; [congruence|]. rewrite Hedges1. exact Hin.
  - intros u v t' Hin. apply Hin' in Hin as [[Hk ->]|[Hk Hin]].
    + injection Hk as -> ->. left. auto.
    + rewrite Hedges1 in Hin. destruct (Hb u v t' Hin) as [H|[Htp [Hu Hv]]]; auto.
  - apply Hnd'. rewrite Hedges1. exact Hnd.
Qed.

Lemma step_import (G : DiGraph) (u v : string) :
  is_file G u -> is_file G v -> graph_inv paths G ->
  let G' := add_edge u v "imports" G in
  graph_inv paths G' /\ (forall q, is_file G q -> is_file G' q).
Proof.
  intros Hu Hv Hinv G'. pose proof Hinv as [Ha [Hb Hnd]].
  destruct (add_edge_spec G u v "imports" (is_file_has_node G u Hu)
              (is_file_has_node G v Hv)) as [Hnodes [Hnd' Hin']].
  fold G' in Hnodes, Hnd', Hin'.
  assert (Hattr : forall m, node_attr G' m = node_attr G m)
    by (intros m; apply node_attr_nodes; exact Hnodes).
  assert (Hmono : forall q, is_file G q -> is_file G' q).
  { intros q [a [Hq Hqt]]. exists a. rewrite Hattr. auto. }
  split; [|exact Hmono]. split; [|split].
  - intros m a. rewrite Hattr. intros Hm.
    destruct (Ha m a Hm) as [H|[H|[Htp [fp [Hf [Hm' [Hfp Hin]]]]]]]; auto.
    right. right. split; auto. exists fp. repeat split; auto.
    apply Hin'. right. split; auto. intros Hk. injection Hk as E1 E2.
    rewrite E2 in Hm'. exact (member_not_path fp v Hm' (inv_file_path G v Hinv Hv)).
  - intros u' v' t' Hin. apply Hin' in Hin as [[Hk ->]|[Hk Hin]].
    + injection Hk as -> ->. right. auto.
    + destruct (Hb u' v' t' Hin) as [H|[Htp [Hu' Hv']]]; auto.
  - apply Hnd'. exact Hnd.
Qed.

Lemma fold_member_step {A : Type} (get : A -> string) (t fp : string) (l : list A)
    (G : DiGraph) :
  (t = "class" \/ t = "function") -> forallb (fun x => plain_name (get x)) l = true ->
  graph_inv paths G -> is_file G fp ->
  let G' := fold_left (fun G x => add_edge fp (fp ++ "::" ++ get x) "contains"
                                    (add_node (fp ++ "::" ++ get x) t (Some fp) G)) l G in
  graph_inv paths G' /\ (forall q, is_file G q -> is_file G' q).
Proof.
  intros Ht. revert G. induction l as [|x l IH]; intros G Hl Hinv Hfp; simpl.
  - auto.
  - simpl in Hl. apply andb_prop in Hl as [Hx Hl].
    pose proof (step_member G fp (get x) t Hfp Hx Ht Hinv) as H. cbv zeta in H.
    destruct H as [I1 M1].
    destruct (IH _ Hl I1 (M1 _ Hfp)) as [I2 M2]. auto.
Qed.

Lemma add_file_nodes_inv (G : DiGraph) (f : FileInfo) :
  In (file_path f) paths -> names_ok f = true -> graph_inv paths G ->
  graph_inv paths (add_file_nodes G f) /\ is_file (add_file_nodes G f) (file_path f) /\
  (forall q, is_file G q -> is_file (add_file_nodes G f) q).
Proof.
  intros Hp Hn Hinv. unfold names_ok in Hn. apply andb_prop in Hn as [Hc Hf].
  pose proof (step_file G (file_path f) Hp Hinv) as H. cbv zeta in H.
  destruct H as [I0 [F0 M0]].
  pose proof (fold_member_step cls_name "class" (file_path f) (f_classes f) _
                (or_introl eq_refl) Hc I0 F0) as H. cbv zeta in H.
  destruct H as [I1 M1].
  pose proof (fold_member_step fn_name "function" (file_path f) (f_functions f) _
                (or_intror eq_refl) Hf I1 (M1 _ F0)) as H. cbv zeta in H.
  destruct H as [I2 M2].
  unfold add_file_nodes. cbv zeta.
  split; [exact I2|split; [exact (M2 _ (M1 _ F0))|]].
  intros q Hq. exact (M2 _ (M1 _ (M0 _ Hq))).
Qed.

Lemma add_file_nodes_fold (fs : list FileInfo) (G : DiGraph) :
  (forall f, In f fs -> In (file_path f) paths) -> forallb names_ok fs = true ->
  graph_inv paths G ->
  graph_inv paths (fold_left add_file_nodes fs G) /\
  (forall f, In f fs -> is_file (fold_left add_file_nodes fs G) (file_path f)) /\
  (forall q, is_file G q -> is_file (fold_left add_file_nodes fs G) q).
Proof.
  revert G. induction fs as [|f fs IH]; intros G Hp Hn Hinv; simpl.
  - split; [exact Hinv|split; [intros _ []|auto]].
  - simpl in Hn. apply andb_prop in Hn as [Hf Hfs].
    destruct (add_file_nodes_inv G f (Hp f (or_introl eq_refl)) Hf Hinv) as [I1 [F1 M1]].
    destruct (IH (add_file_nodes G f) (fun g Hg => Hp g (or_intror Hg)) Hfs I1)
      as [I2 [F2 M2]].
    split; [exact I2|split; [|auto]].
    intros g [<-|Hg]; auto.
Qed.

Lemma add_import_edges_inv (files : list FileInfo) (G : DiGraph) (f : FileInfo) :
  (forall m t, In t (import_targets files m) -> In t paths) ->
  In (file_path f) paths ->
  graph_inv paths G -> (forall p, In p paths -> is_file G p) ->
  graph_inv paths (add_import_edges files G f) /\
  (forall p, In p paths -> is_file (add_import_edges files G f) p).
Proof.
  intros Htg Hfp Hinv Hall. unfold add_import_edges.
  apply (fold_preserve (fun G => graph_inv paths G /\ forall p, In p paths -> is_file G p));
    [|auto].
  intros imp G1 _ [I1 F1]. destruct (String.eqb (imp_type imp) "from_import"); [|auto].
  apply (fold_preserve (fun G => graph_inv paths G /\ forall p, In p paths -> is_file G p));
    [|auto].
  intros t G2 Ht [I2 F2]. destruct (negb (String.eqb t (file_path f))); [|auto].
  pose proof (step_import G2 (file_path f) t (F2 _ Hfp) (F2 _ (Htg _ _ Ht)) I2) as H.
  cbv zeta in H. destruct H as [I3 M3]. auto.
Qed.

End Invariant.

Lemma graph_inv_empty (paths : list string) : graph_inv paths empty_graph.
Proof.
  split; [|split].
  - intros n a H. discriminate H.
  - intros u v t [].
  - constructor.
Qed.

Lemma import_targets_paths (files : list FileInfo) (m t : string) :
  In t (import_targets files m) -> In t (map file_path files).
Proof.
  unfold import_targets. intros H. apply in_map_iff in H as [f [<- Hf]].
  apply in_map. apply filter_In in Hf. tauto.
Qed.

Lemma build_dependency_graph_inv (structure : Structure) :
  (forall f, In f (st_files structure) -> exists q, file_path f = (q ++ ".py")%string) ->
  forallb names_ok (st_files structure) = true ->
  graph_inv (map file_path (st_files structure)) (build_dependency_graph structure).
Proof.
  intros Hpy Hn. set (files := st_files structure) in *.
  set (paths := map file_path files).
  assert (Hpy' : forall p, In p paths -> exists q, p = (q ++ ".py")%string).
  { intros p Hp. apply in_map_iff in Hp as [f [<- Hf]]. exact (Hpy f Hf). }
  assert (Hin : forall f, In f files -> In (file_path f) paths) by (intros f Hf; apply in_map, Hf).
  destruct (add_file_nodes_fold paths Hpy' files empty_graph Hin Hn (graph_inv_empty paths))
    as [I1 [F1 _]].
  assert (Hall : forall p, In p paths -> is_file (fold_left add_file_nodes files empty_graph) p).
  { intros p Hp. apply in_map_iff in Hp as [f [<- Hf]]. exact (F1 f Hf). }
  unfold build_dependency_graph. fold files.
  assert (H : forall fs G, (forall f, In f fs -> In f files) ->
            graph_inv paths G -> (forall p, In p paths -> is_file G p) ->
            graph_inv paths (fold_left (add_import_edges files) fs G)).
  { induction fs as [|f fs IH]; intros G Hsub HG HA; simpl; [exact HG|].
    destruct (add_import_edges_inv paths Hpy' files G f
                (import_targets_paths files) (Hin f (Hsub f (or_introl eq_refl))) HG HA)
      as [I2 F2].
    apply IH; auto. intros g Hg. apply Hsub. right. exact Hg. }
  apply H; auto.
Qed.

End DepGraphFacts.

(** ** Claims about RepositoryAnalyzer.build_dependency_graph *)
Module DepGraphClaims.
Import DepGraph DepGraphFacts Aux.
Local Open Scope list_scope.

(** C9: for an index whose file paths end in ".py" and whose class and
    function names are plain identifiers (no ':' and no '.'), every class or
    function node of the built graph names its owning file, that file's node
    has type "file", and the 'contains' edges into the node are exactly one,
    the edge from that file; every 'imports' edge joins two file nodes. *)
Theorem build_dependency_graph_containment (structure : Structure)
    (Hpy : forall f, In f (st_files structure) -> exists q, file_path f = (q ++ ".py")%string)
    (Hnames : forallb names_ok (st_files structure) = true) :
  let G := build_dependency_graph structure in
  (forall n a, node_attr G n = Some a ->
     (na_type a = Some "class" \/ na_type a = Some "function") ->
     exists fp b, na_file a = Some fp /\ node_attr G fp = Some b /\
                  na_type b = Some "file" /\
                  filter (fun e => String.eqb (snd (fst e)) n && String.eqb (snd e) "contains")
                         (g_edges G) = [((fp, n), "contains")]) /\
  (forall u v, In ((u, v), "imports") (g_edges G) -> is_file G u /\ is_file G v).
Proof.
  intros G.
  destruct (build_dependency_graph_inv structure Hpy Hnames) as [Ha [Hb Hnd]].
  fold G in Ha, Hb, Hnd. split.
  - intros n a Hn Ht.
    destruct (Ha n a Hn) as [[Hf _]|[Hnone|[_ [fp [Hf [Hm [Hfp Hin]]]]]]];
      [destruct Ht; congruence|destruct Ht; congruence|].
    destruct Hfp as [b [Hb1 Hb2]]. exists fp, b. repeat split; auto.
    apply filter_unique_key; auto.
    + simpl. rewrite !String.eqb_refl. reflexivity.
    + intros [[u v] t] Hy HP. simpl in HP. apply andb_prop in HP as [E1 E2].
      apply String.eqb_eq in E1, E2. subst v t. simpl.
      destruct (Hb u n "contains" Hy) as [[_ Hm']|[Ht' _]]; [|discriminate].
      rewrite (member_unique u fp n Hm' Hm). reflexivity.
  - intros u v Hin.
    destruct (Hb u v "imports" Hin) as [[Hc _]|[_ H]]; [discriminate|exact H].
Qed.

(** C9 witness: app.py (class Service, function main, from models import
    User) and models.py (class User). *)
Lemma build_dependency_graph_containment_witness :
  let s := {| st_files :=
                [{| file_path := "app.py";
                    f_classes := [{| cls_name := "Service"; cls_methods := [];
                                     cls_decorators := []; cls_bases := [];
                                     cls_docstring := None |}];
                    f_functions := [{| fn_name := "main"; fn_args := [];
                                       fn_return_type := None; fn_decorators := [];
                                       fn_docstring := None; fn_is_method := false;
                                       fn_class := None |}];
                    f_imports := [{| imp_type := "from_import"; imp_module := "models";
                                     imp_name := Some "User"; imp_alias := None |}];
                    f_docstring := DocMissing |};
                 {| file_path := "models.py";
                    f_classes := [{| cls_name := "User"; cls_methods := [];
                                     cls_decorators := []; cls_bases := [];
                                     cls_docstring := None |}];
                    f_functions := []; f_imports := []; f_docstring := DocMissing |}];
              st_classes := []; st_functions := []; st_imports := [];
              st_files_parsed := 2 |} in
  ((forall f, In f (st_files s) -> exists q, file_path f = (q ++ ".py")%string) /\
   forallb names_ok (st_files s) = true) /\
  let G := build_dependency_graph s in
  (forall n a, node_attr G n = Some a ->
     (na_type a = Some "class" \/ na_type a = Some "function") ->
     exists fp b, na_file a = Some fp /\ node_attr G fp = Some b /\
                  na_type b = Some "file" /\
                  filter (fun e => String.eqb (snd (fst e)) n && String.eqb (snd e) "contains")
                         (g_edges G) = [((fp, n), "contains")]) /\
  (forall u v, In ((u, v), "imports") (g_edges G) -> is_file G u /\ is_file G v).
Proof.
  intros s.
  assert (H1 : forall f, In f (st_files s) -> exists q, file_path f = (q ++ ".py")%string).
  { intros f Hf. simpl in Hf. destruct Hf as [<-|[<-|[]]];
      [exists "app"%string|exists "models"%string]; reflexivity. }
  assert (H2 : forallb names_ok (st_files s) = true) by reflexivity.
  exact (conj (conj H1 H2) (build_dependency_graph_containment s H1 H2)).
Defined.

End DepGraphClaims.

(** ** Claims about parse_python_file *)
Module ASTParserClaims.
Import ASTParser.
Local Open Scope list_scope.

(** C1: whenever the file is read and [ast.parse] succeeds (the text is
    syntactically valid), parse_python_file returns None:
    [ASTParser.parse] has no return statement, so no declaration dict
    reaches the caller. *)
Theorem parse_python_file_returns_none (cleandoc : string -> string)
    (node_str : expr -> string) (read_file : string -> PyExc + string)
    (ast_parse : string -> string -> PyExc + list stmt)
    (path content : string) (tree : list stmt)
    (Hread : read_file path = inr content)
    (Hparse : ast_parse content path = inr tree) :
  parse_python_file cleandoc node_str read_file ast_parse path = Returned PyNone.
Proof.
  unfold parse_python_file. rewrite Hread, Hparse. reflexivity.
Qed.

(** C1 witness: the valid text "import os". *)
Lemma parse_python_file_returns_none_witness :
  let read_file := fun _ : string => @inr PyExc string "import os" in
  let ast_parse := fun _ _ : string => @inr PyExc (list stmt) [SImport [("os", None)]] in
  (read_file "m.py" = inr "import os" /\
   ast_parse "import os" "m.py" = inr [SImport [("os", None)]]) /\
  parse_python_file (fun s => s) (fun _ => "") read_file ast_parse "m.py" = Returned PyNone.
Proof.
  intros read_file ast_parse. split; [split; reflexivity|].
  apply (parse_python_file_returns_none (fun s => s) (fun _ => "") read_file ast_parse
           "m.py" "import os" [SImport [("os", None)]]); reflexivity.
Defined.

(** C1 counterexample: for the valid file "class A: def m(self): pass"
    the call returns None, not a dict listing class A; the instance the
    parser fills also lists the method m among the top-level functions
    (is_method false), because [current_class] is reset before the class
    body is visited. *)
Lemma parse_python_file_valid_file_counterexample :
  let tree := [SClassDef "A" [] [] [SFunctionDef "m" [("self", None)] None [] [SOther []]]] in
  parse_python_file (fun s => s) (fun _ => "") (fun _ => inr "class A:
    def m(self): pass
") (fun _ _ => inr tree) "a.py" = Returned PyNone /\
  map cls_name (classes (parse_state (fun s => s) (fun _ => "") tree)) = ["A"] /\
  map (fun f => (fn_name f, fn_is_method f))
      (functions (parse_state (fun s => s) (fun _ => "") tree)) = [("m", false)].
Proof. repeat split; reflexivity. Qed.

(** C6: when reading the file and [ast.parse] fail only with exceptions
    of class [Exception] (the failures a file's text can cause: SyntaxError,
    ValueError, UnicodeDecodeError, OSError, RecursionError), every call
    returns a value; on a syntax error the value is the dict with the
    message "Syntax error: ...", empty classes, functions and imports, and
    docstring None. *)
Theorem parse_python_file_no_raise (cleandoc : string -> string)
    (node_str : expr -> string) (read_file : string -> PyExc + string)
    (ast_parse : string -> string -> PyExc + list stmt)
    (Hread : forall p m, read_file p <> inl (NonException m))
    (Hast : forall c p m, ast_parse c p <> inl (NonException m)) :
  (forall path, exists v,
     parse_python_file cleandoc node_str read_file ast_parse path = Returned v) /\
  (forall path content msg,
     read_file path = inr content -> ast_parse content path = inl (SyntaxError msg) ->
     parse_python_file cleandoc node_str read_file ast_parse path =
       Returned (PyDict {| pd_error := "Syntax error: " ++ msg; pd_classes := [];
                           pd_functions := []; pd_imports := []; pd_docstring := None |})).
Proof.
  split.
  - intros path. unfold parse_python_file.
    destruct (read_file path) as [e|content] eqn:Hr.
    + destruct e as [m|m|m]; [eexists; reflexivity|eexists; reflexivity|].
      exfalso. exact (Hread path m Hr).
    + destruct (ast_parse content path) as [e|tree] eqn:Hp; [|eexists; reflexivity].
      destruct e as [m|m|m]; [eexists; reflexivity|eexists; reflexivity|].
      exfalso. exact (Hast content path m Hp).
  - intros path content msg Hr Hp. unfold parse_python_file.
    rewrite Hr, Hp. reflexivity.
Qed.

(** C6 witness: a file holding "def f(:" whose parse raises SyntaxError. *)
Lemma parse_python_file_no_raise_witness :
  let read_file := fun _ : string => @inr PyExc string "def f(:" in
  let ast_parse := fun _ _ : string =>
                     @inl PyExc (list stmt) (SyntaxError "invalid syntax (bad.py, line 1)") in
  ((forall p m, read_file p <> inl (NonException m)) /\
   (forall c p m, ast_parse c p <> inl (NonException m))) /\
  parse_python_file (fun s => s) (fun _ => "") read_file ast_parse "bad.py" =
    Returned (PyDict {| pd_error := "Syntax error: invalid syntax (bad.py, line 1)";
                        pd_classes := []; pd_functions := []; pd_imports := [];
                        pd_docstring := None |}).
Proof.
  intros read_file ast_parse.
  assert (H1 : forall p m, read_file p <> inl (NonException m)) by discriminate.
  assert (H2 : forall c p m, ast_parse c p <> inl (NonException m))
    by (intros c p m H; injection H as H; discriminate H).
  split; [split; assumption|].
  exact (proj2 (parse_python_file_no_raise (fun s => s) (fun _ => "") read_file ast_parse H1 H2)
           "bad.py" "def f(:" "invalid syntax (bad.py, line 1)" eq_refl eq_refl).
Defined.

End ASTParserClaims.

Module ImpactDetectorExtraFacts.
Import PyStr ImpactDetector ImpactDetectorExtra Aux.
Local Open Scope list_scope.

Lemma ascii_lower_idem (c : ascii) : ascii_lower (ascii_lower c) = ascii_lower c.
Proof.
  destruct c as [b0 b1 b2 b3 b4 b5 b6 b7].
  destruct b0, b1, b2, b3, b4, b5, b6, b7; vm_compute; reflexivity.
Qed.

Lemma lower_idem (s : string) : lower (lower s) = lower s.
Proof. induction s as [|c s IH]; simpl; [reflexivity|]. rewrite ascii_lower_idem, IH. reflexivity. Qed.

Lemma length_flat_map_le {A B : Type} (g : A -> list B) (l : list A) :
  (forall x, length (g x) <= 1) -> length (flat_map g l) <= length l.
Proof.
  intros H. induction l as [|x l IH]; simpl; [lia|]. rewrite length_app.
  specialize (H x). lia.
Qed.

Lemma keyword_hits_subseq (P : FileInfo -> bool) (files : list FileInfo) :
  subseq (flat_map (fun f => if P f then [file_path f] else []) files)
         (map file_path files).
Proof.
  induction files as [|f files IH]; simpl; [constructor|].
  destruct (P f); simpl; constructor; exact IH.
Qed.

Lemma subseq_count_occ (l1 l2 : list string) (p : string) :
  subseq l1 l2 -> count_occ string_dec l1 p <= count_occ string_dec l2 p.
Proof.
  induction 1 as [|x l1 l2 _ IH|x l1 l2 _ IH]; simpl; [lia| |];
    destruct (string_dec x p); lia.
Qed.

(** The keyword fallback lists, in index order and at most once per file
    record, the files whose lower-cased path contains a word of the
    lower-cased request longer than three characters: the result is a
    subsequence of the indexed paths, no path occurs in it more often than
    in the index, and it is never longer than the index. *)
Theorem find_files_by_keywords_spec (change_request : string) (structure : Structure) :
  (forall p, In p (find_files_by_keywords change_request structure) <->
     exists f, In f (st_files structure) /\ file_path f = p /\
       exists k, In k (split (lower change_request)) /\ 3 < String.length k /\
                 contains k (lower p) = true) /\
  subseq (find_files_by_keywords change_request structure)
         (map file_path (st_files structure)) /\
  (forall p, count_occ string_dec (find_files_by_keywords change_request structure) p
             <= count_occ string_dec (map file_path (st_files structure)) p) /\
  length (find_files_by_keywords change_request structure) <= length (st_files structure).
Proof.
  assert (Hsub : subseq (find_files_by_keywords change_request structure)
                        (map file_path (st_files structure)))
    by apply keyword_hits_subseq.
  split; [|split; [exact Hsub|split; [intros p; apply subseq_count_occ, Hsub|]]].
  - unfold find_files_by_keywords.
    intros p. rewrite in_flat_map. split.
    + intros [f [Hf Hp]].
      destruct (existsb _ _) eqn:E; [|destruct Hp].
      destruct Hp as [<-|[]]. exists f. split; [exact Hf|split; [reflexivity|]].
      apply existsb_exists in E as [k [Hk Hc]]. apply andb_prop in Hc as [Hl Hc].
      apply Nat.ltb_lt in Hl. eauto.
    + intros [f [Hf [<- [k [Hk [Hl Hc]]]]]]. exists f. split; [exact Hf|].
      replace (existsb _ _) with true; [left; reflexivity|].
      symmetry. apply existsb_exists. exists k. split; [exact Hk|].
      apply andb_true_intro. split; [apply Nat.ltb_lt; exact Hl|exact Hc].
  - unfold find_files_by_keywords.
    apply length_flat_map_le. intros f. destruct (existsb _ _); simpl; lia.
Qed.

(** Every overlap entry names a feature of the input and carries the
    fixed type and the message naming it; a feature whose lower-cased words
    all have at most four characters never yields an entry. *)
Theorem detect_feature_overlap_spec (change_request : string) (features : list string) :
  (forall o, In o (detect_feature_overlap change_request features) ->
     In (feature_name o) features /\ overlap_type o = "potential_conflict" /\
     conflict_description o = ("Change may conflict with existing feature: "
                               ++ feature_name o)%string) /\
  (forall f, forallb (fun w => Nat.leb (String.length w) 4) (split (lower f)) = true ->
     forall o, In o (detect_feature_overlap change_request features) -> feature_name o <> f).
Proof.
  unfold detect_feature_overlap. split.
  - intros o Ho. rewrite in_flat_map in Ho. destruct Ho as [f [Hf Ho]].
    destruct (existsb _ _); [|destruct Ho]. destruct Ho as [<-|[]]. simpl. auto.
  - intros f Hsh o Ho Hn. rewrite in_flat_map in Ho. destruct Ho as [g [Hg Ho]].
    destruct (existsb _ _) eqn:E; [|destruct Ho]. destruct Ho as [<-|[]].
    simpl in Hn. subst g. apply existsb_exists in E as [w [Hw Hc]].
    apply andb_prop in Hc as [Hl _]. apply Nat.ltb_lt in Hl.
    rewrite forallb_forall in Hsh. specialize (Hsh w Hw). apply Nat.leb_le in Hsh. lia.
Qed.

(** The keyword fallback and the overlap detection read the change
    request only through its lower-cased form. *)
Theorem change_request_case_insensitive (change_request : string)
    (structure : Structure) (features : list string) :
  find_files_by_keywords (lower change_request) structure
    = find_files_by_keywords change_request structure /\
  detect_feature_overlap (lower change_request) features
    = detect_feature_overlap change_request features.
Proof.
  unfold find_files_by_keywords, detect_feature_overlap. rewrite lower_idem. split; reflexivity.
Qed.

(** find_affected_modules gives one entry per edge whose source or target
    contains the file name, reporting the other end (the target when the
    source matches) with the edge's type and strength 1.0; with the empty
    file name every edge matches and the targets are reported. *)
Theorem find_affected_modules_spec (target_file : string) (edges : list Edge) :
  length (find_affected_modules target_file edges)
    = length (filter (fun e => contains target_file (target e)
                               || contains target_file (source e)) edges) /\
  (forall a, In a (find_affected_modules target_file edges) ->
     exists e, In e edges /\ relationship_type a = etype e /\ dependency_strength a = 2 /\
       ((contains target_file (source e) = true /\ af_file_path a = target e) \/
        (contains target_file (source e) = false /\
         contains target_file (target e) = true /\ af_file_path a = source e))) /\
  find_affected_modules "" edges
    = map (fun e => {| af_file_path := target e; relationship_type := etype e;
                      dependency_strength := 2 |}) edges.
Proof.
  unfold find_affected_modules. split; [|split].
  - induction edges as [|e edges IH]; simpl; [reflexivity|].
    destruct (contains target_file (target e) || contains target_file (source e));
      simpl; rewrite ?IH; reflexivity.
  - intros a Ha. rewrite in_flat_map in Ha. destruct Ha as [e [He Ha]].
    destruct (contains target_file (target e)) eqn:Et;
      destruct (contains target_file (source e)) eqn:Es; simpl in Ha;
      try destruct Ha as [<-|[]]; try destruct Ha; exists e; simpl; auto 8.
  - assert (H0 : forall s, contains "" s = true) by (destruct s; reflexivity).
    induction edges as [|e edges IH]; simpl; [reflexivity|].
    rewrite !H0. simpl. rewrite IH. reflexivity.
Qed.

End ImpactDetectorExtraFacts.

Module StrFacts.
Import PyStr SpecWords.

Lemma str_app_assoc (a b c : string) : (a ++ b) ++ c = a ++ (b ++ c).
Proof. induction a as [|x a IH]; simpl; [reflexivity|]. rewrite IH. reflexivity. Qed.

Lemma str_app_nil_r (a : string) : a ++ "" = a.
Proof. induction a as [|x a IH]; simpl; [reflexivity|]. rewrite IH. reflexivity. Qed.

Lemma str_length_app (a b : string) : String.length (a ++ b) = String.length a + String.length b.
Proof. induction a as [|x a IH]; simpl; [reflexivity|]. rewrite IH. reflexivity. Qed.

Lemma substring_prefix_app (a b : string) : substring 0 (String.length a) (a ++ b) = a.
Proof. induction a as [|x a IH]; simpl; [destruct b; reflexivity|]. rewrite IH. reflexivity. Qed.

Lemma substring_shift_app (a b : string) (n m : nat) :
  substring (String.length a + n) m (a ++ b) = substring n m b.
Proof. induction a as [|x a IH]; simpl; [reflexivity|]. exact IH. Qed.

Lemma substring_whole (s : string) : substring 0 (String.length s) s = s.
Proof. induction s as [|x s IH]; simpl; [reflexivity|]. rewrite IH. reflexivity. Qed.

Lemma str_snoc_exists (s : string) : s <> "" -> exists s' e, s = s' ++ String e "".
Proof.
  induction s as [|x s IH]; intros H; [congruence|].
  destruct s as [|y s].
  - exists "", x. reflexivity.
  - destruct IH as [s' [e He]]; [discriminate|]. exists (String x s'), e. rewrite He. reflexivity.
Qed.

Lemma app_last_char (s1 s2 : string) (c d : ascii) :
  s1 ++ String c "" = s2 ++ String d "" -> c = d /\ s1 = s2.
Proof.
  revert s2. induction s1 as [|x s1 IH]; intros s2 H; destruct s2 as [|y s2]; simpl in H.
  - injection H as ->. auto.
  - injection H as -> H. destruct s2; discriminate.
  - injection H as -> H. destruct s1; discriminate.
  - injection H as -> H. apply IH in H as [-> ->]. auto.
Qed.

Lemma has_char_app' (c : ascii) (s1 s2 : string) :
  has_char c (s1 ++ s2) = has_char c s1 || has_char c s2.
Proof. induction s1 as [|d s1 IH]; simpl; auto. rewrite IH. apply orb_assoc. Qed.

End StrFacts.

Module RepoAnalyzerExtraFacts.
Import PyStr SpecWords RepoAnalyzerExtra StrFacts.

Lemma split_sep_go_no_sep (sep : ascii) (s cur : string) :
  has_char sep cur = false -> forall x, In x (split_sep_go sep s cur) -> has_char sep x = false.
Proof.
  revert cur. induction s as [|c r IH]; intros cur Hc x Hx; simpl in Hx.
  - destruct Hx as [<-|[]]. exact Hc.
  - destruct (Ascii.eqb c sep) eqn:E.
    + destruct Hx as [<-|Hx]; [exact Hc|]. exact (IH "" eq_refl x Hx).
    + apply (IH (cur ++ String c "")); [|exact Hx].
      rewrite has_char_app', Hc. simpl. rewrite E. reflexivity.
Qed.

Lemma last_In_ne {A : Type} (l : list A) (d : A) : l <> [] -> In (last l d) l.
Proof.
  induction l as [|x l IH]; intros H; [congruence|].
  destruct l as [|y l]; [left; reflexivity|]. right. apply IH. discriminate.
Qed.

(** The repository name never contains a '/'. *)
Theorem _extract_repo_name_no_slash (github_url : string) :
  has_char "/" (_extract_repo_name github_url) = false.
Proof.
  unfold _extract_repo_name, split_sep.
  set (u := rstrip_char _ _).
  destruct (split_sep_go "/" u "") as [|y l] eqn:E; [reflexivity|].
  apply (split_sep_go_no_sep "/" u ""); [reflexivity|]. rewrite E.
  apply last_In_ne. discriminate.
Qed.

Lemma endswith_cons (c : ascii) (s t : string) :
  endswith (String c s) t = String.eqb (String c s) t || endswith s t.
Proof. reflexivity. Qed.

Lemma endswith_nil (t : string) : endswith "" t = String.eqb "" t.
Proof. destruct t; reflexivity. Qed.

Lemma endswith_app (s t : string) : endswith (s ++ t) t = true.
Proof.
  induction s as [|c s IH].
  - destruct t as [|a t]; [reflexivity|].
    change (EmptyString ++ String a t) with (String a t).
    rewrite endswith_cons, String.eqb_refl. reflexivity.
  - change (String c s ++ t) with (String c (s ++ t)).
    rewrite endswith_cons, IH, orb_true_r. reflexivity.
Qed.

Lemma endswith_spec (s t : string) : endswith s t = true -> exists p, s = p ++ t.
Proof.
  induction s as [|c s IH]; intros H.
  - rewrite endswith_nil in H. apply String.eqb_eq in H. exists "". exact H.
  - rewrite endswith_cons in H. apply orb_true_iff in H as [H|H].
    + apply String.eqb_eq in H. exists "". exact H.
    + destruct (IH H) as [p ->]. exists (String c p). reflexivity.
Qed.

Lemma endswith_app_cases (s1 s2 t : string) :
  endswith (s1 ++ s2) t = true ->
  endswith s2 t = true \/ exists q, t = q ++ s2 /\ q <> "" /\ endswith s1 q = true.
Proof.
  induction s1 as [|c s1 IH]; intros H; [left; exact H|].
  change (String c s1 ++ s2) with (String c (s1 ++ s2)) in H.
  rewrite endswith_cons in H. apply orb_true_iff in H as [H|H].
  - apply String.eqb_eq in H. right. exists (String c s1). split; [symmetry; exact H|].
    split; [discriminate|]. rewrite endswith_cons, String.eqb_refl. reflexivity.
  - destruct (IH H) as [H'|[q [Hq [Hne Hs]]]]; [left; exact H'|].
    right. exists q. repeat split; auto. rewrite endswith_cons, Hs, orb_true_r. reflexivity.
Qed.

Lemma rstrip_char_cons (c x : ascii) (s : string) :
  rstrip_char c (String x s) =
  (if String.eqb (rstrip_char c s) "" && Ascii.eqb x c then EmptyString
   else String x (rstrip_char c s)).
Proof. reflexivity. Qed.

Lemma rstrip_char_no_char (c : ascii) (s : string) :
  has_char c s = false -> rstrip_char c s = s.
Proof.
  induction s as [|x s IH]; intros H; [reflexivity|].
  simpl in H. apply orb_false_iff in H as [Hx H]. rewrite rstrip_char_cons, IH by exact H.
  rewrite Hx, andb_false_r. reflexivity.
Qed.

Lemma rstrip_char_app (c : ascii) (s1 s2 : string) :
  rstrip_char c s2 <> "" -> rstrip_char c (s1 ++ s2) = s1 ++ rstrip_char c s2.
Proof.
  intros H. induction s1 as [|x s1 IH]; [reflexivity|].
  change (String x s1 ++ s2) with (String x (s1 ++ s2)).
  rewrite rstrip_char_cons, IH.
  destruct (String.eqb (s1 ++ rstrip_char c s2) "") eqn:E; [|reflexivity].
  apply String.eqb_eq in E. destruct s1; simpl in E; [congruence|discriminate].
Qed.

Lemma rstrip_char_app_empty (c : ascii) (s1 s2 : string) :
  rstrip_char c s2 = "" -> rstrip_char c (s1 ++ s2) = rstrip_char c s1.
Proof.
  intros H. induction s1 as [|x s1 IH]; [exact H|].
  change (String x s1 ++ s2) with (String x (s1 ++ s2)).
  rewrite !rstrip_char_cons, IH. reflexivity.
Qed.

Lemma split_sep_go_ne (sep : ascii) (s cur : string) : split_sep_go sep s cur <> [].
Proof.
  revert cur. induction s as [|c r IH]; intros cur; simpl; [discriminate|].
  destruct (Ascii.eqb c sep); [discriminate|apply IH].
Qed.

Lemma last_split_sep_after (sep : ascii) (s1 s2 cur : string) (d : string) :
  last (split_sep_go sep (s1 ++ String sep s2) cur) d = last (split_sep_go sep s2 "") d.
Proof.
  revert cur. induction s1 as [|c s1 IH]; intros cur; simpl.
  - rewrite Ascii.eqb_refl. destruct (split_sep_go sep s2 "") eqn:E;
      [exfalso; exact (split_sep_go_ne sep s2 "" E)|reflexivity].
  - destruct (Ascii.eqb c sep).
    + rewrite <- (IH ""). destruct (split_sep_go sep (s1 ++ String sep s2) "") eqn:E;
        [exfalso; exact (split_sep_go_ne _ _ _ E)|reflexivity].
    + apply IH.
Qed.

Lemma last_split_sep_plain (sep : ascii) (s cur : string) (d : string) :
  has_char sep s = false -> last (split_sep_go sep s cur) d = cur ++ s.
Proof.
  revert cur. induction s as [|c r IH]; intros cur H; simpl.
  - rewrite str_app_nil_r. reflexivity.
  - simpl in H. apply orb_false_iff in H as [Hc H].
    rewrite Hc. rewrite IH by exact H. rewrite str_app_assoc. reflexivity.
Qed.

Lemma name_of_stripped (base r : string) :
  has_char "/" r = false -> r <> "" ->
  (let parts := split_sep "/"%char (rstrip_char "/"%char (base ++ "/" ++ r)) in
   match parts with [] => "repository" | _ => last parts "" end) = r.
Proof.
  intros Hr Hne. cbv zeta.
  assert (Hs : rstrip_char "/" (base ++ "/" ++ r) = base ++ String "/" r).
  { replace (base ++ "/" ++ r) with ((base ++ "/") ++ r) by apply str_app_assoc.
    rewrite rstrip_char_app; rewrite (rstrip_char_no_char _ r Hr); [|exact Hne].
    rewrite str_app_assoc. reflexivity. }
  rewrite Hs. unfold split_sep.
  destruct (split_sep_go "/" (base ++ String "/" r) "") eqn:E;
    [exfalso; exact (split_sep_go_ne _ _ _ E)|].
  rewrite <- E, last_split_sep_after, last_split_sep_plain by exact Hr. reflexivity.
Qed.

(** For a last path segment [r] (non-empty, without '/'), the name read
    from [base/r.git] and from [base/r/] is [r], and from [base/r] too when
    [r] does not end in ".git". *)
Theorem _extract_repo_name_round_trip (base r : string)
    (Hr : has_char "/" r = false) (Hne : r <> "") :
  _extract_repo_name (base ++ "/" ++ r ++ ".git") = r /\
  _extract_repo_name (base ++ "/" ++ r ++ "/") = r /\
  (endswith r ".git" = false -> _extract_repo_name (base ++ "/" ++ r) = r).
Proof.
  assert (Hnotgit : forall s, endswith (s ++ "/") ".git" = false).
  { intros s. destruct (endswith (s ++ "/") ".git") eqn:E; [|reflexivity].
    apply endswith_spec in E as [p Hp].
    replace (p ++ ".git") with ((p ++ ".gi") ++ "t") in Hp
      by (rewrite str_app_assoc; reflexivity).
    apply app_last_char in Hp as [Hc _]. discriminate Hc. }
  split; [|split].
  - assert (Hsub : substring 0 (String.length ((base ++ "/" ++ r) ++ ".git") - 4)
                      ((base ++ "/" ++ r) ++ ".git") = base ++ "/" ++ r).
    { rewrite str_length_app. simpl (String.length ".git").
      replace (String.length (base ++ "/" ++ r) + 4 - 4)
        with (String.length (base ++ "/" ++ r)) by lia.
      apply substring_prefix_app. }
    unfold _extract_repo_name. cbv zeta.
    replace (base ++ "/" ++ r ++ ".git") with ((base ++ "/" ++ r) ++ ".git")
      by (rewrite !str_app_assoc; reflexivity).
    rewrite endswith_app, Hsub. exact (name_of_stripped base r Hr Hne).
  - unfold _extract_repo_name.
    replace (base ++ "/" ++ r ++ "/") with ((base ++ "/" ++ r) ++ "/")
      by (rewrite !str_app_assoc; reflexivity).
    cbv zeta. rewrite Hnotgit, rstrip_char_app_empty by reflexivity.
    exact (name_of_stripped base r Hr Hne).
  - intros Hg. unfold _extract_repo_name. cbv zeta.
    destruct (endswith (base ++ "/" ++ r) ".git") eqn:E.
    + exfalso. replace (base ++ "/" ++ r) with ((base ++ "/") ++ r) in E
        by apply str_app_assoc.
      apply endswith_app_cases in E as [E|[q [Hq [Hqne Hs]]]]; [congruence|].
      apply endswith_spec in Hs as [p Hp].
      destruct (str_snoc_exists q Hqne) as [q' [e ->]].
      rewrite <- str_app_assoc in Hp. apply app_last_char in Hp as [<- _].
      assert (Hh : has_char "/" ".git" = true)
        by (rewrite Hq, !has_char_app'; simpl; rewrite orb_true_r; reflexivity).
      discriminate Hh.
    + exact (name_of_stripped base r Hr Hne).
Qed.

End RepoAnalyzerExtraFacts.

Module RepoAnalyzerParseFacts.
Import ASTParser RepoAnalyzerExtra.

Lemma parse_repository_step_id (cleandoc : string -> string) (node_str : expr -> string)
    (read_file : string -> PyExc + string) (ast_parse : string -> string -> PyExc + list stmt)
    (Hread : forall p m, read_file p <> inl (NonException m))
    (Hast : forall c p m, ast_parse c p <> inl (NonException m))
    (structure : Structure) (py_file : PyPath) :
  parse_repository_step cleandoc node_str read_file ast_parse structure py_file
  = inr structure.
Proof.
  unfold parse_repository_step.
  destruct (existsb _ ignore_dirs); [reflexivity|].
  unfold parse_python_file.
  destruct (read_file (pp_str py_file)) as [e|content] eqn:Hr.
  - destruct e as [m|m|m]; [reflexivity|reflexivity|].
    exfalso. exact (Hread _ m Hr).
  - destruct (ast_parse content (pp_str py_file)) as [e|tree] eqn:Hp; [|reflexivity].
    destruct e as [m|m|m]; [reflexivity|reflexivity|].
    exfalso. exact (Hast _ _ m Hp).
Qed.

(** _parse_repository indexes nothing: when reading and parsing fail only
    with exceptions of class [Exception], every file is skipped (a valid
    file yields None, on which ['error' not in parsed] raises TypeError,
    caught by the loop; a failed parse yields a dict with 'error'), so the
    result is the initial empty structure whatever the files, and the
    dependency graph built from it is empty. *)
Theorem _parse_repository_empty (cleandoc : string -> string) (node_str : expr -> string)
    (read_file : string -> PyExc + string) (ast_parse : string -> string -> PyExc + list stmt)
    (Hread : forall p m, read_file p <> inl (NonException m))
    (Hast : forall c p m, ast_parse c p <> inl (NonException m))
    (python_files : list PyPath) :
  _parse_repository cleandoc node_str read_file ast_parse python_files = inr empty_structure /\
  DepGraph.build_dependency_graph empty_structure = DepGraph.empty_graph.
Proof.
  split; [|reflexivity].
  unfold _parse_repository.
  induction python_files as [|x l IH] using rev_ind; [reflexivity|].
  rewrite fold_left_app, IH. simpl.
  apply parse_repository_step_id; assumption.
Qed.

(** Witness: a valid file, a file with a syntax error and a file under
    .venv. *)
Lemma _parse_repository_empty_witness :
  let read_file := fun p : string =>
    if String.eqb p "/r/bad.py" then @inr PyExc string "def f(:"
    else @inr PyExc string "import os" in
  let ast_parse := fun c _ : string =>
    if String.eqb c "def f(:" then @inl PyExc (list stmt) (SyntaxError "invalid syntax")
    else @inr PyExc (list stmt) [SImport [("os", None)]] in
  let files := [{| pp_str := "/r/app.py"; pp_parts := ["/"; "r"; "app.py"];
                   pp_relative := "app.py" |};
                {| pp_str := "/r/bad.py"; pp_parts := ["/"; "r"; "bad.py"];
                   pp_relative := "bad.py" |};
                {| pp_str := "/r/.venv/x.py"; pp_parts := ["/"; "r"; ".venv"; "x.py"];
                   pp_relative := ".venv/x.py" |}] in
  ((forall p m, read_file p <> inl (NonException m)) /\
   (forall c p m, ast_parse c p <> inl (NonException m))) /\
  _parse_repository (fun s => s) (fun _ => "") read_file ast_parse files = inr empty_structure.
Proof.
  intros read_file ast_parse files.
  assert (H1 : forall p m, read_file p <> inl (NonException m)).
  { intros p m. unfold read_file. destruct (String.eqb p "/r/bad.py"); discriminate. }
  assert (H2 : forall c p m, ast_parse c p <> inl (NonException m)).
  { intros c p m. unfold ast_parse. destruct (String.eqb c "def f(:"); discriminate. }
  split; [split; assumption|].
  exact (proj1 (_parse_repository_empty (fun s => s) (fun _ => "") read_file ast_parse H1 H2 files)).
Defined.

End RepoAnalyzerParseFacts.

Module ClaudeReplyFacts.
Import PyStr SpecWords ClaudeReply StrFacts.

Lemma prefix_cons (x y : ascii) (a t : string) :
  prefix (String x a) (String y t) = if ascii_dec x y then prefix a t else false.
Proof. reflexivity. Qed.

Lemma prefix_app_self (a b : string) : prefix a (a ++ b) = true.
Proof.
  induction a as [|x a IH]; [destruct b; reflexivity|].
  change (String x a ++ b) with (String x (a ++ b)). rewrite prefix_cons.
  destruct (ascii_dec x x); [exact IH|congruence].
Qed.

Lemma prefix_tick_neq (n s : string) (c : ascii) :
  Ascii.eqb c "`" = false -> prefix (String "`" n) (String c s) = false.
Proof.
  intros H.
  rewrite prefix_cons.
  destruct (ascii_dec "`" c) as [E|]; [|reflexivity].
  subst c. discriminate H.
Qed.

Lemma find_go_cons (n r : string) (c : ascii) (i : nat) :
  find_go n (String c r) i = if prefix n (String c r) then Some i else find_go n r (S i).
Proof. reflexivity. Qed.

Lemma find_go_skip (n pre rest : string) (i : nat) :
  has_char "`" pre = false ->
  find_go (String "`" n) (pre ++ rest) i = find_go (String "`" n) rest (i + String.length pre).
Proof.
  revert i. induction pre as [|c pre IH]; intros i H.
  - simpl. rewrite Nat.add_0_r. reflexivity.
  - simpl in H. apply orb_false_iff in H as [Hc H].
    change (String c pre ++ rest) with (String c (pre ++ rest)).
    rewrite find_go_cons, prefix_tick_neq by exact Hc.
    rewrite IH by exact H. simpl String.length. rewrite Nat.add_succ_r. reflexivity.
Qed.

Lemma find_go_here (n rest : string) (i : nat) : find_go n (n ++ rest) i = Some i.
Proof.
  pose proof (prefix_app_self n rest) as H.
  destruct (n ++ rest) as [|c r].
  - unfold find_go. rewrite H. reflexivity.
  - rewrite find_go_cons, H. reflexivity.
Qed.

Lemma find_go_none (n s : string) (i : nat) :
  has_char "`" s = false -> find_go (String "`" n) s i = None.
Proof.
  revert i. induction s as [|c s IH]; intros i H; [reflexivity|].
  simpl in H. apply orb_false_iff in H as [Hc H].
  rewrite find_go_cons, prefix_tick_neq by exact Hc. apply IH, H.
Qed.

Lemma contains_cons (n r : string) (c : ascii) :
  contains n (String c r) = prefix n (String c r) || contains n r.
Proof. reflexivity. Qed.

Lemma contains_app_mid (n pre rest : string) : contains n (pre ++ n ++ rest) = true.
Proof.
  induction pre as [|c pre IH].
  - pose proof (prefix_app_self n rest) as H. simpl (EmptyString ++ _).
    destruct (n ++ rest) as [|c r].
    + unfold contains. rewrite H. reflexivity.
    + rewrite contains_cons, H. reflexivity.
  - change (String c pre ++ n ++ rest) with (String c (pre ++ n ++ rest)).
    rewrite contains_cons, IH, orb_true_r. reflexivity.
Qed.

Lemma find_after (n a b : string) :
  find n (a ++ b) (Z.of_nat (String.length a)) =
  match find_go n b (String.length a) with Some i => Z.of_nat i | None => (-1)%Z end.
Proof.
  unfold find. rewrite Nat2Z.id, str_length_app.
  replace (Nat.ltb (String.length a + String.length b) (String.length a)) with false
    by (symmetry; apply Nat.ltb_ge; lia).
  replace (String.length a + String.length b - String.length a) with (String.length b) by lia.
  rewrite <- (Nat.add_0_r (String.length a)) at 1.
  rewrite substring_shift_app, substring_whole. reflexivity.
Qed.

Lemma slice_nat (s : string) (a b : nat) :
  a <= b -> b <= String.length s ->
  slice s (Z.of_nat a) (Z.of_nat b) = substring a (b - a) s.
Proof.
  intros Hab Hb. unfold slice, slice_index.
  replace (Z.of_nat a <? 0)%Z with false by (symmetry; apply Z.ltb_ge; lia).
  replace (Z.of_nat b <? 0)%Z with false by (symmetry; apply Z.ltb_ge; lia).
  rewrite !Nat2Z.id. rewrite (Nat.min_l a) by lia. rewrite (Nat.min_l b) by lia.
  reflexivity.
Qed.

Lemma slice_to_last (s : string) (a : nat) :
  a <= String.length s ->
  slice s (Z.of_nat a) (-1) = substring a (String.length s - 1 - a) s.
Proof.
  intros Ha. unfold slice, slice_index.
  replace (Z.of_nat a <? 0)%Z with false by (symmetry; apply Z.ltb_ge; lia).
  rewrite Nat2Z.id, (Nat.min_l a) by lia. simpl (-1 <? 0)%Z. cbv iota.
  replace (Z.to_nat (Z.max 0 (Z.of_nat (String.length s) + -1)))
    with (String.length s - 1) by lia.
  reflexivity.
Qed.

Lemma json_start_pos (pre rest : string) :
  has_char "`" pre = false ->
  (find "```json" (pre ++ "```json" ++ rest) 0 + 7)%Z
  = Z.of_nat (String.length (pre ++ "```json")).
Proof.
  intros Hpre.
  change (find "```json" (pre ++ "```json" ++ rest) 0)
    with (find "```json" ("" ++ (pre ++ "```json" ++ rest)) (Z.of_nat (String.length ""))).
  rewrite find_after. simpl String.length at 1.
  rewrite find_go_skip by exact Hpre. rewrite find_go_here.
  rewrite str_length_app. simpl. lia.
Qed.

(** A reply holding a ```json fence closed by ``` (no backquote before the
    fence or inside the payload) gives [json.loads] the stripped payload. *)
Theorem extract_json_text_fenced (pre p post : string)
    (Hpre : has_char "`" pre = false) (Hp : has_char "`" p = false) :
  extract_json_text (pre ++ "```json" ++ p ++ "```" ++ post) = strip p.
Proof.
  unfold extract_json_text. rewrite contains_app_mid. cbv zeta.
  rewrite json_start_pos by exact Hpre.
  set (a := pre ++ "```json").
  replace (pre ++ "```json" ++ p ++ "```" ++ post) with (a ++ (p ++ "```" ++ post))
    by (unfold a; rewrite str_app_assoc; reflexivity).
  rewrite find_after, find_go_skip by exact Hp. rewrite find_go_here.
  rewrite slice_nat; [|lia|rewrite !str_length_app; simpl; lia].
  replace (String.length a + String.length p - String.length a) with (String.length p) by lia.
  rewrite <- (Nat.add_0_r (String.length a)) at 1.
  rewrite substring_shift_app, substring_prefix_app. reflexivity.
Qed.

(** A reply whose ```json fence is never closed: [find] returns -1 and the
    slice [json_start:-1] drops the last character of the payload. *)
Theorem extract_json_text_unclosed (pre p : string)
    (Hpre : has_char "`" pre = false) (Hp : has_char "`" p = false) :
  extract_json_text (pre ++ "```json" ++ p)
  = strip (substring 0 (String.length p - 1) p).
Proof.
  unfold extract_json_text. rewrite (contains_app_mid "```json" pre p). cbv zeta.
  replace (pre ++ "```json" ++ p) with (pre ++ "```json" ++ p ++ "")
    by (rewrite str_app_nil_r; reflexivity).
  rewrite json_start_pos by exact Hpre. rewrite str_app_nil_r.
  set (a := pre ++ "```json").
  replace (pre ++ "```json" ++ p) with (a ++ p) by (unfold a; rewrite str_app_assoc; reflexivity).
  rewrite find_after, find_go_none by exact Hp.
  rewrite slice_to_last by (rewrite str_length_app; lia).
  rewrite str_length_app.
  replace (String.length a + String.length p - 1 - String.length a)
    with (String.length p - 1) by lia.
  rewrite <- (Nat.add_0_r (String.length a)) at 1.
  rewrite substring_shift_app. reflexivity.
Qed.

End ClaudeReplyFacts.

Module RepoNameReplyWitness.
Import PyStr SpecWords ClaudeReply RepoAnalyzerExtra RepoAnalyzerExtraFacts ClaudeReplyFacts.

(** Witness: https://github.com/owner/repo.git names the repository repo. *)
Lemma _extract_repo_name_round_trip_witness :
  (has_char "/" "repo" = false /\ "repo" <> "") /\
  _extract_repo_name ("https://github.com/owner" ++ "/" ++ "repo" ++ ".git") = "repo".
Proof.
  assert (H1 : has_char "/" "repo" = false) by reflexivity.
  assert (H2 : "repo" <> "") by discriminate.
  split; [split; assumption|].
  exact (proj1 (_extract_repo_name_round_trip "https://github.com/owner" "repo" H1 H2)).
Defined.

(** Witness: a reply with text before and after a closed json fence. *)
Lemma extract_json_text_fenced_witness :
  (has_char "`" "Here: " = false /\ has_char "`" " [1, 2] " = false) /\
  extract_json_text ("Here: " ++ "```json" ++ " [1, 2] " ++ "```" ++ " done")
  = strip " [1, 2] ".
Proof.
  assert (H1 : has_char "`" "Here: " = false) by reflexivity.
  assert (H2 : has_char "`" " [1, 2] " = false) by reflexivity.
  split; [split; assumption|].
  exact (extract_json_text_fenced "Here: " " [1, 2] " " done" H1 H2).
Defined.

(** Witness: an unclosed fence around [1, 2] gives the text [1, 2 without
    its closing bracket. *)
Lemma extract_json_text_unclosed_witness :
  (has_char "`" "" = false /\ has_char "`" "[1, 2]" = false) /\
  extract_json_text ("" ++ "```json" ++ "[1, 2]") = strip (substring 0 5 "[1, 2]").
Proof.
  assert (H1 : has_char "`" "" = false) by reflexivity.
  assert (H2 : has_char "`" "[1, 2]" = false) by reflexivity.
  split; [split; assumption|].
  exact (extract_json_text_unclosed "" "[1, 2]" H1 H2).
Defined.

End RepoNameReplyWitness.

Module DepGraphExtraFacts.
Import DepGraph DepGraphAux DepGraphFacts SpecWords Aux.
Local Open Scope list_scope.

Lemma ensure_node_edges (G : DiGraph) (n : string) : g_edges (ensure_node n G) = g_edges G.
Proof. unfold ensure_node. destruct (has_node G n); reflexivity. Qed.

Lemma ensure_node_has (G : DiGraph) (n m : string) :
  has_node G m = true \/ m = n -> has_node (ensure_node n G) m = true.
Proof.
  unfold ensure_node. destruct (has_node G n) eqn:E; intros [H| ->]; auto.
  - unfold has_node in *. simpl. rewrite existsb_app, H. reflexivity.
  - unfold has_node. simpl. rewrite existsb_app. simpl. rewrite String.eqb_refl, orb_true_r.
    reflexivity.
Qed.

Lemma add_node_edges (G : DiGraph) (n typ : string) (file : option string) :
  g_edges (add_node n typ file G) = g_edges G.
Proof. unfold add_node. destruct (has_node G n); reflexivity. Qed.

Lemma add_edge_in (G : DiGraph) (u v t : string) (k : string * string) (t' : string) :
  In (k, t') (g_edges (add_edge u v t G)) <->
  (k = (u, v) /\ t' = t) \/ (k <> (u, v) /\ In (k, t') (g_edges G)).
Proof.
  assert (Hu : has_node (ensure_node v (ensure_node u G)) u = true)
    by (apply ensure_node_has; left; apply ensure_node_has; right; reflexivity).
  assert (Hv : has_node (ensure_node v (ensure_node u G)) v = true)
    by (apply ensure_node_has; right; reflexivity).
  assert (E : add_edge u v t G = add_edge u v t (ensure_node v (ensure_node u G))).
  { unfold add_edge at 2. rewrite (ensure_node_present _ u Hu), (ensure_node_present _ v Hv).
    reflexivity. }
  rewrite E, (proj2 (proj2 (add_edge_spec _ u v t Hu Hv)) k t'), !ensure_node_edges.
  reflexivity.
Qed.

Lemma key_dec (k k' : string * string) : {k = k'} + {k <> k'}.
Proof.
  destruct (key_eqb k k') eqn:E; [left; apply key_eqb_spec, E|right].
  intros H. apply key_eqb_spec in H. congruence.
Qed.

Lemma contains_step (G : DiGraph) (a b : string) (R : string * string -> Prop) :
  (forall k t, In (k, t) (g_edges G) <-> t = "contains" /\ R k) ->
  forall k t, In (k, t) (g_edges (add_edge a b "contains" G)) <->
              t = "contains" /\ (k = (a, b) \/ R k).
Proof.
  intros HG k t. rewrite add_edge_in, HG. split.
  - intros [[-> ->]|[_ [-> HR]]]; auto.
  - intros [-> [E|HR]]; [left; auto|].
    destruct (key_dec k (a, b)); [left|right]; auto.
Qed.

Lemma contains_fold {A : Type} (get : A -> string) (typ fp : string) (l : list A) :
  forall (G : DiGraph) (R : string * string -> Prop),
  (forall k t, In (k, t) (g_edges G) <-> t = "contains" /\ R k) ->
  forall k t, In (k, t) (g_edges (fold_left (fun G x =>
      add_edge fp (fp ++ "::" ++ get x)%string "contains"
        (add_node (fp ++ "::" ++ get x)%string typ (Some fp) G)) l G)) <->
    t = "contains" /\ (R k \/ exists x, In x l /\ k = (fp, (fp ++ "::" ++ get x)%string)).
Proof.
  induction l as [|x l IH]; intros G R HG k t; cbn [fold_left].
  - rewrite HG. split; [intros [? ?]; auto|intros [? [?|[? [[] _]]]]; auto].
  - rewrite (IH _ (fun k => k = (fp, (fp ++ "::" ++ get x)%string) \/ R k)).
    + split.
      * intros [Ht [[E|HR]|[y [Hy E]]]]; split; auto.
        -- right. exists x. split; [left; reflexivity|exact E].
        -- right. exists y. split; [right; exact Hy|exact E].
      * intros [Ht [HR|[y [[<-|Hy] E]]]]; split; auto.
        right. exists y. split; [exact Hy|exact E].
    + apply contains_step. intros k' t'. rewrite add_node_edges. apply HG.
Qed.

Lemma add_file_nodes_edges (G : DiGraph) (f : FileInfo) (R : string * string -> Prop) :
  (forall k t, In (k, t) (g_edges G) <-> t = "contains" /\ R k) ->
  forall k t, In (k, t) (g_edges (add_file_nodes G f)) <->
    t = "contains" /\
    (R k \/ (fst k = file_path f /\
             exists nm, snd k = (file_path f ++ "::" ++ nm)%string /\
               (In nm (map cls_name (f_classes f)) \/ In nm (map fn_name (f_functions f))))).
Proof.
  intros HG k t. unfold add_file_nodes. cbv zeta.
  rewrite (contains_fold fn_name "function" (file_path f) (f_functions f) _
             (fun k => R k \/ exists x, In x (f_classes f) /\
                         k = (file_path f, (file_path f ++ "::" ++ cls_name x)%string))).
  2:{ apply contains_fold. intros k' t'. rewrite add_node_edges. apply HG. }
  split.
  - intros [Ht H]. split; [exact Ht|].
    destruct H as [[HR|[x [Hx ->]]]|[x [Hx ->]]].
    + left. exact HR.
    + right. split; [reflexivity|]. exists (cls_name x). split; [reflexivity|].
      left. apply in_map, Hx.
    + right. split; [reflexivity|]. exists (fn_name x). split; [reflexivity|].
      right. apply in_map, Hx.
  - intros [Ht H]. split; [exact Ht|].
    destruct H as [HR|[Hk [nm [Hn [Hc|Hc]]]]].
    + left. left. exact HR.
    + apply in_map_iff in Hc as [x [<- Hx]]. left. right. exists x. split; [exact Hx|].
      destruct k; simpl in *; subst; reflexivity.
    + apply in_map_iff in Hc as [x [<- Hx]]. right. exists x. split; [exact Hx|].
      destruct k; simpl in *; subst; reflexivity.
Qed.

Lemma add_file_nodes_fold_edges (fs : list FileInfo) :
  forall (G : DiGraph) (R : string * string -> Prop),
  (forall k t, In (k, t) (g_edges G) <-> t = "contains" /\ R k) ->
  forall k t, In (k, t) (g_edges (fold_left add_file_nodes fs G)) <->
    t = "contains" /\ (R k \/ contains_rel fs (fst k) (snd k)).
Proof.
  induction fs as [|f fs IH]; intros G R HG k t; cbn [fold_left].
  - rewrite HG. unfold contains_rel. split; [tauto|].
    intros [Ht [HR|[g [[] _]]]]; auto.
  - rewrite (IH _ (fun k => R k \/ (fst k = file_path f /\
             exists nm, snd k = (file_path f ++ "::" ++ nm)%string /\
               (In nm (map cls_name (f_classes f)) \/ In nm (map fn_name (f_functions f)))))).
    2:{ apply add_file_nodes_edges, HG. }
    unfold contains_rel. split.
    + intros [Ht [[HR|[Hk Hn]]|[g [Hg [Hp Hn]]]]]; split; auto; right.
      * exists f. split; [left; reflexivity|]. split; [symmetry; exact Hk|].
        rewrite Hk. exact Hn.
      * exists g. split; [right; exact Hg|]. split; [exact Hp|exact Hn].
    + intros [Ht [HR|[g [[<-|Hg] [Hp Hn]]]]]; split; auto.
      * left. right. split; [symmetry; exact Hp|]. rewrite Hp. exact Hn.
      * right. exists g. auto.
Qed.

Lemma import_step (G : DiGraph) (a b : string) (Rc Ri : string * string -> Prop) :
  ~ Rc (a, b) ->
  (forall k t, In (k, t) (g_edges G) <->
               (t = "contains" /\ Rc k) \/ (t = "imports" /\ Ri k)) ->
  forall k t, In (k, t) (g_edges (add_edge a b "imports" G)) <->
    (t = "contains" /\ Rc k) \/ (t = "imports" /\ (k = (a, b) \/ Ri k)).
Proof.
  intros Hab HG k t. rewrite add_edge_in, HG. split.
  - intros [[-> ->]|[_ [[-> HR]|[-> HR]]]]; auto.
  - intros [[-> HR]|[-> [E|HR]]].
    + right. split; [intros ->; exact (Hab HR)|auto].
    + left. auto.
    + destruct (key_dec k (a, b)); [left|right]; auto.
Qed.

Lemma import_targets_fold (fp : string) (l : list string) :
  forall (G : DiGraph) (Rc Ri : string * string -> Prop),
  (forall b, In b l -> ~ Rc (fp, b)) ->
  (forall k t, In (k, t) (g_edges G) <->
               (t = "contains" /\ Rc k) \/ (t = "imports" /\ Ri k)) ->
  forall k t, In (k, t) (g_edges (fold_left (fun G target =>
      if negb (String.eqb target fp) then add_edge fp target "imports" G else G) l G)) <->
    (t = "contains" /\ Rc k) \/
    (t = "imports" /\ (Ri k \/ (fst k = fp /\ In (snd k) l /\ snd k <> fp))).
Proof.
  induction l as [|b l IH]; intros G Rc Ri Hl HG k t; cbn [fold_left].
  - rewrite HG. split; [tauto|]. intros [H|[Ht [HR|[_ [[] _]]]]]; auto.
  - destruct (String.eqb_spec b fp) as [Eb|Eb]; cbv beta iota; cbn [negb]; cbv iota.
    + rewrite (IH _ Rc Ri (fun b' Hb' => Hl b' (or_intror Hb')) HG).
      split.
      * intros [H|[Ht [HR|[Hk [Hin Hne]]]]]; [auto|auto|].
        right. split; [exact Ht|]. right. split; [exact Hk|]. split; [right; exact Hin|exact Hne].
      * intros [H|[Ht [HR|[Hk [[Eb'|Hin] Hne]]]]]; [auto|auto| |].
        -- congruence.
        -- right. split; [exact Ht|]. right. split; [exact Hk|]. split; [exact Hin|exact Hne].
    + rewrite (IH _ Rc (fun k => k = (fp, b) \/ Ri k) (fun b' Hb' => Hl b' (or_intror Hb'))).
      2:{ apply import_step; [apply Hl; left; reflexivity|exact HG]. }
      split.
      * intros [H|[Ht [[E|HR]|[Hk [Hin Hne]]]]]; [auto| |auto|].
        -- right. split; [exact Ht|]. right. subst k. cbn [fst snd].
           split; [reflexivity|]. split; [left; reflexivity|exact Eb].
        -- right. split; [exact Ht|]. right. split; [exact Hk|]. split; [right; exact Hin|exact Hne].
      * intros [H|[Ht [HR|[Hk [[Eb'|Hin] Hne]]]]]; [auto|auto| |].
        -- right. split; [exact Ht|]. left. left. destruct k; simpl in *; subst; reflexivity.
        -- right. split; [exact Ht|]. right. split; [exact Hk|]. split; [exact Hin|exact Hne].
Qed.

Lemma import_imports_fold (files : list FileInfo) (fp : string) (imps : list ImportInfo) :
  forall (G : DiGraph) (Rc Ri : string * string -> Prop),
  (forall b, In b (map file_path files) -> ~ Rc (fp, b)) ->
  (forall k t, In (k, t) (g_edges G) <->
               (t = "contains" /\ Rc k) \/ (t = "imports" /\ Ri k)) ->
  forall k t, In (k, t) (g_edges (fold_left (fun G imp =>
       if String.eqb (imp_type imp) "from_import" then
         fold_left (fun G target =>
                      if negb (String.eqb target fp) then add_edge fp target "imports" G else G)
           (import_targets files (imp_module imp)) G
       else G) imps G)) <->
    (t = "contains" /\ Rc k) \/
    (t = "imports" /\
     (Ri k \/ (fst k = fp /\ exists imp, In imp imps /\ imp_type imp = "from_import" /\
                 In (snd k) (import_targets files (imp_module imp)) /\ snd k <> fp))).
Proof.
  induction imps as [|imp imps IH]; intros G Rc Ri Hp HG k t; cbn [fold_left].
  - rewrite HG. split; [tauto|]. intros [H|[Ht [HR|[_ [imp [[] _]]]]]]; auto.
  - destruct (String.eqb_spec (imp_type imp) "from_import") as [Ei|Ei]; cbv beta iota.
    + rewrite (IH _ Rc (fun k => Ri k \/ (fst k = fp /\
                 In (snd k) (import_targets files (imp_module imp)) /\ snd k <> fp)) Hp).
      2:{ apply import_targets_fold; [|exact HG].
          intros b Hb. apply Hp. exact (import_targets_paths files _ _ Hb). }
      split.
      * intros [H|[Ht [[HR|[Hk [Hin Hne]]]|[Hk [imp' [Hi [Ht' [Hin Hne]]]]]]]]; auto.
        -- right. split; [exact Ht|]. right. split; [exact Hk|].
           exists imp. split; [left; reflexivity|]. auto.
        -- right. split; [exact Ht|]. right. split; [exact Hk|].
           exists imp'. split; [right; exact Hi|]. auto.
      * intros [H|[Ht [HR|[Hk [imp' [[<-|Hi] [Ht' [Hin Hne]]]]]]]]; auto.
        -- right. split; [exact Ht|]. left. right. auto.
        -- right. split; [exact Ht|]. right. split; [exact Hk|]. exists imp'. auto.
    + rewrite (IH _ Rc Ri Hp HG).
      split.
      * intros [H|[Ht [HR|[Hk [imp' [Hi [Ht' [Hin Hne]]]]]]]]; auto.
        right. split; [exact Ht|]. right. split; [exact Hk|].
        exists imp'. split; [right; exact Hi|]. auto.
      * intros [H|[Ht [HR|[Hk [imp' [[<-|Hi] [Ht' [Hin Hne]]]]]]]]; auto.
        -- congruence.
        -- right. split; [exact Ht|]. right. split; [exact Hk|]. exists imp'. auto.
Qed.

Lemma add_import_edges_fold_edges (files fs : list FileInfo) :
  forall (G : DiGraph) (Rc Ri : string * string -> Prop),
  (forall a b, In b (map file_path files) -> ~ Rc (a, b)) ->
  (forall k t, In (k, t) (g_edges G) <->
               (t = "contains" /\ Rc k) \/ (t = "imports" /\ Ri k)) ->
  forall k t, In (k, t) (g_edges (fold_left (add_import_edges files) fs G)) <->
    (t = "contains" /\ Rc k) \/
    (t = "imports" /\
     (Ri k \/ exists f, In f fs /\ file_path f = fst k /\
                exists imp, In imp (f_imports f) /\ imp_type imp = "from_import" /\
                  In (snd k) (import_targets files (imp_module imp)) /\ snd k <> fst k)).
Proof.
  induction fs as [|f fs IH]; intros G Rc Ri Hp HG k t; cbn [fold_left].
  - rewrite HG. split; [tauto|]. intros [H|[Ht [HR|[f [[] _]]]]]; auto.
  - rewrite (IH _ Rc (fun k => Ri k \/ (fst k = file_path f /\
                exists imp, In imp (f_imports f) /\ imp_type imp = "from_import" /\
                  In (snd k) (import_targets files (imp_module imp)) /\
                  snd k <> file_path f)) Hp).
    2:{ unfold add_import_edges. cbv zeta. apply import_imports_fold; [|exact HG].
        intros b Hb. apply Hp. exact Hb. }
    split.
    + intros [H|[Ht [[HR|[Hk [imp [Hi [Ht' [Hin Hne]]]]]]|[g [Hg [Hgk Hrest]]]]]]; auto.
      * right. split; [exact Ht|]. right. exists f. split; [left; reflexivity|].
        split; [symmetry; exact Hk|]. exists imp. rewrite Hk. auto.
      * right. split; [exact Ht|]. right. exists g. split; [right; exact Hg|]. auto.
    + intros [H|[Ht [HR|[g [[<-|Hg] [Hgk [imp [Hi [Ht' [Hin Hne]]]]]]]]]]; auto.
      * right. split; [exact Ht|]. left. right. split; [symmetry; exact Hgk|].
        exists imp. rewrite Hgk. auto.
      * right. split; [exact Ht|]. right. exists g. split; [exact Hg|].
        split; [exact Hgk|]. exists imp. auto.
Qed.

Lemma contains_rel_member (files : list FileInfo) (u v : string) :
  forallb names_ok files = true -> contains_rel files u v -> member u v.
Proof.
  intros Hn [f [Hf [Hu [nm [Hv Hin]]]]]. exists nm. split; [exact Hv|].
  rewrite forallb_forall in Hn. specialize (Hn f Hf). unfold names_ok in Hn.
  apply andb_prop in Hn as [Hc Hg]. rewrite forallb_forall in Hc, Hg.
  destruct Hin as [Hin|Hin]; apply in_map_iff in Hin as [x [<- Hx]]; auto.
Qed.

Lemma build_dependency_graph_edges_iff (structure : Structure) :
  (forall f, In f (st_files structure) -> exists q, file_path f = (q ++ ".py")%string) ->
  forallb names_ok (st_files structure) = true ->
  forall u v t, In ((u, v), t) (g_edges (build_dependency_graph structure)) <->
    (t = "contains" /\ contains_rel (st_files structure) u v) \/
    (t = "imports" /\ import_rel (st_files structure) u v).
Proof.
  intros Hpy Hn. set (files := st_files structure) in *.
  assert (Hpy' : forall p, In p (map file_path files) -> exists q, p = (q ++ ".py")%string).
  { intros p Hp. apply in_map_iff in Hp as [f [<- Hf]]. exact (Hpy f Hf). }
  assert (H1 := add_file_nodes_fold_edges files empty_graph (fun _ => False)
                  (fun k t => conj (fun H : In (k, t) [] => match H with end)
                                   (fun H : t = "contains" /\ False => match proj2 H with end))).
  assert (H2 := add_import_edges_fold_edges files files (fold_left add_file_nodes files empty_graph)
                  (fun k => contains_rel files (fst k) (snd k)) (fun _ => False)).
  intros u v t. unfold build_dependency_graph. fold files.
  rewrite H2.
  - unfold import_rel. cbn [fst snd]. tauto.
  - intros a b Hb Hc. cbn [fst snd] in Hc.
    exact (member_not_path _ Hpy' a b (contains_rel_member files a b Hn Hc) Hb).
  - intros k t'. rewrite H1. tauto.
Qed.


(** The edges of the graph built by build_dependency_graph, for file paths
    ending in ".py" and plain class and function names, are exactly a
    "contains" edge from each indexed file to the node [f"{file}::{name}"] of
    each of its classes and functions, and an "imports" edge from a file to
    every other indexed file matched by one of its from-imports; no edge is
    a self-loop. *)
Theorem build_dependency_graph_edges (structure : Structure)
    (Hpy : forall f, In f (st_files structure) -> exists q, file_path f = (q ++ ".py")%string)
    (Hnames : forallb names_ok (st_files structure) = true) :
  (forall u v t, In ((u, v), t) (g_edges (build_dependency_graph structure)) <->
     (t = "contains" /\ contains_rel (st_files structure) u v) \/
     (t = "imports" /\ import_rel (st_files structure) u v)) /\
  (forall u v t, In ((u, v), t) (g_edges (build_dependency_graph structure)) -> u <> v).
Proof.
  split; [exact (build_dependency_graph_edges_iff structure Hpy Hnames)|].
  intros u v t Hin E. subst v.
  apply (build_dependency_graph_edges_iff structure Hpy Hnames) in Hin.
  destruct Hin as [[_ [f [_ [_ [nm [Hv _]]]]]]|[_ [f [_ [_ [imp [_ [_ [_ Hne]]]]]]]]].
  - apply (f_equal String.length) in Hv. rewrite !StrFacts.str_length_app in Hv.
    simpl in Hv. lia.
  - exact (Hne eq_refl).
Qed.

(** The nodes of type "file" of the built graph are exactly the indexed
    file paths, for file paths ending in ".py" and plain class and function
    names. *)
Theorem build_dependency_graph_file_nodes (structure : Structure)
    (Hpy : forall f, In f (st_files structure) -> exists q, file_path f = (q ++ ".py")%string)
    (Hnames : forallb names_ok (st_files structure) = true) :
  forall p, is_file (build_dependency_graph structure) p <->
            In p (map file_path (st_files structure)).
Proof.
  intros p. pose proof (build_dependency_graph_inv structure Hpy Hnames) as Hinv.
  set (files := st_files structure) in *. set (paths := map file_path files) in *.
  assert (Hpy' : forall p, In p paths -> exists q, p = (q ++ ".py")%string).
  { intros q Hq. apply in_map_iff in Hq as [f [<- Hf]]. exact (Hpy f Hf). }
  assert (Hin : forall f, In f files -> In (file_path f) paths) by (intros f Hf; apply in_map, Hf).
  split; [exact (inv_file_path paths _ p Hinv)|].
  destruct (add_file_nodes_fold paths Hpy' files empty_graph Hin Hnames (graph_inv_empty paths))
    as [I1 [F1 _]].
  assert (H : forall fs G, (forall f, In f fs -> In f files) ->
            graph_inv paths G -> (forall q, In q paths -> is_file G q) ->
            forall q, In q paths -> is_file (fold_left (add_import_edges files) fs G) q).
  { induction fs as [|f fs IH]; intros G Hsub HG HA; cbn [fold_left]; [exact HA|].
    destruct (add_import_edges_inv paths Hpy' files G f
                (import_targets_paths files) (Hin f (Hsub f (or_introl eq_refl))) HG HA)
      as [I2 F2].
    apply IH; auto. intros g Hg. apply Hsub. right. exact Hg. }
  unfold build_dependency_graph. fold files. apply H; auto.
  intros q Hq. apply in_map_iff in Hq as [f [<- Hf]]. exact (F1 f Hf).
Qed.

End DepGraphExtraFacts.

Module DepGraphExtraWitness.
Import DepGraph DepGraphAux SpecWords Aux DepGraphExtraFacts.
Local Open Scope list_scope.

(** Witness: api.py (class Handler, from db import Session) and db.py
    (function connect). *)
Lemma build_dependency_graph_edges_witness :
  let s := {| st_files :=
                [{| file_path := "api.py";
                    f_classes := [{| cls_name := "Handler"; cls_methods := [];
                                     cls_decorators := []; cls_bases := [];
                                     cls_docstring := None |}];
                    f_functions := [];
                    f_imports := [{| imp_type := "from_import"; imp_module := "db";
                                     imp_name := Some "Session"; imp_alias := None |}];
                    f_docstring := DocMissing |};
                 {| file_path := "db.py"; f_classes := [];
                    f_functions := [{| fn_name := "connect"; fn_args := [];
                                       fn_return_type := None; fn_decorators := [];
                                       fn_docstring := None; fn_is_method := false;
                                       fn_class := None |}];
                    f_imports := []; f_docstring := DocMissing |}];
              st_classes := []; st_functions := []; st_imports := [];
              st_files_parsed := 2 |} in
  ((forall f, In f (st_files s) -> exists q, file_path f = (q ++ ".py")%string) /\
   forallb names_ok (st_files s) = true) /\
  (In (("api.py", "db.py"), "imports") (g_edges (build_dependency_graph s)) <->
   import_rel (st_files s) "api.py" "db.py").
Proof.
  intros s.
  assert (H1 : forall f, In f (st_files s) -> exists q, file_path f = (q ++ ".py")%string).
  { intros f Hf. simpl in Hf. destruct Hf as [<-|[<-|[]]];
      [exists "api"%string|exists "db"%string]; reflexivity. }
  assert (H2 : forallb names_ok (st_files s) = true) by reflexivity.
  split; [split; assumption|].
  rewrite (proj1 (build_dependency_graph_edges s H1 H2)). split.
  - intros [[E _]|[_ H]]; [discriminate E|exact H].
  - intros H. right. split; [reflexivity|exact H].
Defined.

(** Witness: the index of the previous witness. Its file nodes are api.py
    and db.py; the declaration nodes api.py::Handler (a class node) and
    db.py::connect are nodes of the graph but not file nodes. *)
Lemma build_dependency_graph_file_nodes_witness :
  let s := {| st_files :=
                [{| file_path := "api.py";
                    f_classes := [{| cls_name := "Handler"; cls_methods := [];
                                     cls_decorators := []; cls_bases := [];
                                     cls_docstring := None |}];
                    f_functions := [];
                    f_imports := [{| imp_type := "from_import"; imp_module := "db";
                                     imp_name := Some "Session"; imp_alias := None |}];
                    f_docstring := DocMissing |};
                 {| file_path := "db.py"; f_classes := [];
                    f_functions := [{| fn_name := "connect"; fn_args := [];
                                       fn_return_type := None; fn_decorators := [];
                                       fn_docstring := None; fn_is_method := false;
                                       fn_class := None |}];
                    f_imports := []; f_docstring := DocMissing |}];
              st_classes := []; st_functions := []; st_imports := [];
              st_files_parsed := 2 |} in
  let G := build_dependency_graph s in
  ((forall f, In f (st_files s) -> exists q, file_path f = (q ++ ".py")%string) /\
   forallb names_ok (st_files s) = true) /\
  is_file G "api.py" /\ is_file G "db.py" /\
  (exists a, node_attr G "api.py::Handler" = Some a /\ na_type a = Some "class") /\
  (exists a, node_attr G "db.py::connect" = Some a /\ na_type a = Some "function") /\
  ~ is_file G "api.py::Handler" /\ ~ is_file G "db.py::connect".
Proof.
  intros s G.
  assert (H1 : forall f, In f (st_files s) -> exists q, file_path f = (q ++ ".py")%string).
  { intros f Hf. simpl in Hf. destruct Hf as [<-|[<-|[]]];
      [exists "api"%string|exists "db"%string]; reflexivity. }
  assert (H2 : forallb names_ok (st_files s) = true) by reflexivity.
  pose proof (build_dependency_graph_file_nodes s H1 H2) as Hf.
  split; [split; assumption|].
  split; [apply Hf; left; reflexivity|].
  split; [apply Hf; right; left; reflexivity|].
  split; [eexists; split; vm_compute; reflexivity|].
  split; [eexists; split; vm_compute; reflexivity|].
  split; intros H; apply Hf in H; simpl in H;
    destruct H as [E|[E|[]]]; discriminate E.
Defined.

End DepGraphExtraWitness.

Module ASTParserFacts.
Import ASTParser ParserAux ParserAux2.

Section Visitor.
Variable cleandoc : string -> string.
Variable node_str : expr -> string.

Local Abbreviation visit := (ASTParser.visit cleandoc node_str).

Lemma generic_visit_eq (l : list stmt) (st : VState) :
  (fix go (st : VState) (l : list stmt) : VState :=
     match l with [] => st | s :: l => go (ASTParser.visit cleandoc node_str st s) l end) st l
  = fold_left visit l st.
Proof. revert st. induction l as [|s l IH]; intros st; [reflexivity|exact (IH _)]. Qed.

Lemma visit_class (st : VState) n d b body :
  visit st (SClassDef n d b body) =
  fold_left visit body
    (set_current_class
       (add_class (set_current_class st (Some n))
          {| cls_name := n;
             cls_methods := class_methods cleandoc node_str (set_current_class st (Some n)) body;
             cls_decorators := map (_get_decorator_name node_str) d;
             cls_bases := map (_get_name node_str) b;
             cls_docstring := get_docstring cleandoc body |}) None).
Proof. exact (generic_visit_eq _ _). Qed.

Lemma visit_function (st : VState) n a r d body :
  visit st (SFunctionDef n a r d body) =
  fold_left visit body
    (match current_class st with
     | None => add_function st
                 (_extract_function_info cleandoc node_str st n a r d body false)
     | Some _ => st
     end).
Proof. exact (generic_visit_eq _ _). Qed.

Lemma visit_other (st : VState) ch : visit st (SOther ch) = fold_left visit ch st.
Proof. exact (generic_visit_eq _ _). Qed.

Lemma class_methods_flags (st : VState) (body : list stmt) (m : FuncInfo) :
  In m (class_methods cleandoc node_str st body) ->
  fn_is_method m = true /\ fn_class m = current_class st.
Proof.
  unfold class_methods. intros H. apply in_flat_map in H as [s [_ Hs]].
  destruct s; simpl in Hs; try contradiction. destruct Hs as [<-|[]]. split; reflexivity.
Qed.


Lemma fold_visit_post (l : list stmt) :
  Forall (fun s => forall st, current_class st = None ->
            visit_post st (visit st s) (count_classes s) (count_functions s) (count_imports s)) l ->
  forall st, current_class st = None ->
  visit_post st (fold_left visit l st) (list_sum (map count_classes l))
    (list_sum (map count_functions l)) (list_sum (map count_imports l)).
Proof.
  induction l as [|s l IH]; intros Hl st Hst; cbn [fold_left map list_sum].
  - unfold visit_post. rewrite !Nat.add_0_r. auto.
  - apply Forall_cons_iff in Hl as [Hs Hl].
    destruct (Hs st Hst) as [N1 [C1 [F1 [I1 O1]]]].
    destruct (IH Hl _ N1) as [N2 [C2 [F2 [I2 O2]]]].
    unfold visit_post. unfold list_sum in *. cbn [fold_right]. split; [exact N2|]. split; [lia|]. split; [lia|]. split; [lia|].
    intros H. exact (O2 (O1 H)).
Qed.

Lemma visit_post_stmt (s : stmt) :
  forall st, current_class st = None ->
  visit_post st (visit st s) (count_classes s) (count_functions s) (count_imports s).
Proof.
  induction s as [n d b body Hb|n a r d body Hb|names|m names|e|ch Hch]
    using stmt_ind'; intros st Hst.
  - rewrite visit_class. cbn [count_classes count_functions count_imports].
    match goal with |- context [fold_left visit body ?st2] =>
      destruct (fold_visit_post body Hb st2 eq_refl) as [N1 [C1 [F1 [I1 O1]]]] end.
    unfold visit_post. split; [exact N1|]. split.
    { rewrite C1. cbn [classes add_class set_current_class]. rewrite length_app. simpl. lia. }
    split; [rewrite F1; reflexivity|]. split; [rewrite I1; reflexivity|].
    intros [Hf Hc]. apply O1. split; [exact Hf|].
    cbn [classes add_class set_current_class]. intros c Hin m Hm.
    apply in_app_or in Hin as [Hin|[<-|[]]]; [exact (Hc c Hin m Hm)|].
    cbn [cls_methods cls_name] in Hm |- *. exact (class_methods_flags _ _ m Hm).
  - rewrite visit_function, Hst. cbn [count_classes count_functions count_imports].
    match goal with |- context [fold_left visit body ?st2] =>
      destruct (fold_visit_post body Hb st2 Hst) as [N1 [C1 [F1 [I1 O1]]]] end.
    unfold visit_post. split; [exact N1|]. split; [rewrite C1; reflexivity|].
    split; [rewrite F1; cbn [functions add_function]; rewrite length_app; simpl; lia|].
    split; [rewrite I1; reflexivity|].
    intros [Hf Hc]. apply O1. split; [|exact Hc].
    cbn [functions add_function]. intros f Hin.
    apply in_app_or in Hin as [Hin|[<-|[]]]; [exact (Hf f Hin)|]. split; reflexivity.
  - unfold visit_post. cbn [visit count_classes count_functions count_imports ASTParser.visit add_imports classes functions imports current_class].
    rewrite length_app, length_map.
    split; [exact Hst|]. split; [lia|]. split; [lia|]. split; [lia|]. intros H. exact H.
  - unfold visit_post. cbn [visit count_classes count_functions count_imports ASTParser.visit add_imports classes functions imports current_class].
    rewrite length_app, length_map.
    split; [exact Hst|]. split; [lia|]. split; [lia|]. split; [lia|]. intros H. exact H.
  - unfold visit_post. cbn [visit ASTParser.visit count_classes count_functions count_imports].
    rewrite !Nat.add_0_r. split; [exact Hst|]. split; [lia|]. split; [lia|]. split; [lia|].
    intros H. exact H.
  - rewrite visit_other. exact (fold_visit_post ch Hch st Hst).
Qed.

End Visitor.
Lemma parse_state_fields (cleandoc : string -> string) (node_str : expr -> string)
    (tree : list stmt) :
  let st := fold_left (ASTParser.visit cleandoc node_str) tree init_state in
  classes (parse_state cleandoc node_str tree) = classes st /\
  functions (parse_state cleandoc node_str tree) = functions st /\
  imports (parse_state cleandoc node_str tree) = imports st /\
  current_class (parse_state cleandoc node_str tree) = current_class st.
Proof.
  unfold parse_state. destruct tree as [|s t]; [auto|].
  destruct s; try destruct value; auto.
Qed.

Lemma parse_state_post (cleandoc : string -> string) (node_str : expr -> string)
    (tree : list stmt) :
  visit_post init_state (fold_left (ASTParser.visit cleandoc node_str) tree init_state)
    (list_sum (map count_classes tree)) (list_sum (map count_functions tree))
    (list_sum (map count_imports tree)).
Proof.
  apply fold_visit_post; [|reflexivity].
  apply Forall_forall. intros s _. apply visit_post_stmt.
Qed.

(** After [ASTParser.parse] on a module, the instance holds one class record
    per class definition and one function record per function definition,
    at any depth: the methods of a class are counted among the functions,
    since the class body is visited after [current_class] is reset to None;
    and one import record per imported name. *)
Theorem parse_state_counts (cleandoc : string -> string) (node_str : expr -> string)
    (tree : list stmt) :
  let st := parse_state cleandoc node_str tree in
  length (classes st) = list_sum (map count_classes tree) /\
  length (functions st) = list_sum (map count_functions tree) /\
  length (imports st) = list_sum (map count_imports tree).
Proof.
  cbv zeta. destruct (parse_state_fields cleandoc node_str tree) as [Ec [Ef [Ei _]]].
  destruct (parse_state_post cleandoc node_str tree) as [_ [C [F [I _]]]].
  rewrite Ec, Ef, Ei, C, F, I. split; [|split]; reflexivity.
Qed.

(** After [ASTParser.parse], [current_class] is None, every record in
    [functions] has is_method False and class None, and every method record
    of a class has is_method True and the class's name as its class. *)
Theorem parse_state_flags (cleandoc : string -> string) (node_str : expr -> string)
    (tree : list stmt) :
  let st := parse_state cleandoc node_str tree in
  current_class st = None /\
  (forall f, In f (functions st) -> fn_is_method f = false /\ fn_class f = None) /\
  (forall c, In c (classes st) -> forall m, In m (cls_methods c) ->
     fn_is_method m = true /\ fn_class m = Some (cls_name c)).
Proof.
  cbv zeta. destruct (parse_state_fields cleandoc node_str tree) as [Ec [Ef [_ En]]].
  destruct (parse_state_post cleandoc node_str tree) as [N [_ [_ [_ O]]]].
  destruct O as [Hf Hc]; [split; intros ? []|].
  rewrite Ec, Ef, En. split; [exact N|split; [exact Hf|exact Hc]].
Qed.

End ASTParserFacts.

Module ImpactAnalysisFacts.
Import PyStr ImpactAnalysis SpecWords StrFacts.






(** With a value for each of its four fields, IMPACT_ANALYSIS_PROMPT formats
    without error: each field is replaced by its value and the doubled
    braces around the JSON example become single braces. *)
Theorem impact_prompt_format_all_fields
    (repo_structure dependency_graph pdf_documents change_description : string) :
  format IMPACT_ANALYSIS_PROMPT
    [("repo_structure", repo_structure); ("dependency_graph", dependency_graph);
     ("pdf_documents", pdf_documents); ("change_description", change_description)]
  = inr (String.concat (String (ascii_of_nat 10) "") [
      "You are analyzing the impact of a proposed code change.";
      "";
      "Current Codebase Structure:";
      repo_structure;
      "";
      "Dependency Graph:";
      dependency_graph;
      "";
      "Additional Documentation (PDFs):";
      pdf_documents;
      "";
      "Proposed Change:";
      change_description;
      "";
      "Please analyze:";
      "1. Which files and modules will be affected?";
      "2. Are there any existing features that overlap with this change?";
      "3. Does this change conflict with any documented requirements or specifications?";
      "4. What are the potential risks or conflicts?";
      "5. What is your recommendation?";
      "";
      "Respond in JSON format:";
      "{";
      "    " ++ dq "affected_files" ++ ": [" ++ dq "file1.py" ++ ", " ++ dq "file2.py" ++ "],";
      "    " ++ dq "affected_features" ++ ": [" ++ dq "feature1" ++ ", " ++ dq "feature2" ++ "],";
      "    " ++ dq "overlaps" ++ ": [" ++ dq "overlap description" ++ "],";
      "    " ++ dq "risks" ++ ": [" ++ dq "risk1" ++ ", " ++ dq "risk2" ++ "],";
      "    " ++ dq "risk_level" ++ ": " ++ dq "low|medium|high|critical" ++ ",";
      "    " ++ dq "recommendation" ++ ": " ++ dq "detailed recommendation";
      "}"]).
Proof. vm_compute. reflexivity. Qed.



End ImpactAnalysisFacts.
